(** * VRM Material Hide Shape Key: a shallow embedding of
      [vrm_hidematblenshape.py] and the properties of its two operators.

    The add-on has two operations.  [sync_material_list] rebuilds the
    per-object check-list of materials; [CreateHideOperator.execute] reads
    the check-list, finds the vertices of the faces that use a checked
    material, computes their positions shrunk towards a centre and stores
    them as a shape key, leaving the live mesh as it was.

    Organisation: the host interface (vectors, set iteration), Python
    strings, the data model, the two operators, then the theorems. *)

From Stdlib Require Import ZArith NArith Bool String Ascii Lia.
From Stdlib Require Import Floats.SpecFloat.
From stdpp Require Import gmap strings list fin_sets sorting.

Set Default Proof Using "Type".
Local Open Scope string_scope.
Local Open Scope list_scope.
Local Open Scope nat_scope.
Local Open Scope stdpp_scope.

(** ** The host interface *)

(** [mathutils.Vector] and the host's float, as far as the add-on uses
    them: [Vector()], [+], [-], [Vector * float], [Vector / int] and the
    float literal [0.0].  The operators are taken as an interface; the
    IEEE-754 single precision instance the host really has is
    [Binary32.ops] below. *)
Class VectorOps := {
  float : Type;
  Vector : Type;
  float_zero : float;                    (* 0.0 *)
  Vector_zero : Vector;                  (* Vector() and Vector((0, 0, 0)) *)
  vadd : Vector → Vector → Vector;       (* a + b *)
  vsub : Vector → Vector → Vector;       (* a - b *)
  vmul : Vector → float → Vector;        (* a * s *)
  vdiv : Vector → nat → Vector;          (* a / n, n a non-zero int *)
}.

(** Python leaves the order in which a [set] is iterated unspecified.  The
    order is an enumeration of the members, each once. *)
Class SetOrder := {
  set_iter : gset nat → list nat;
  set_iter_perm : ∀ s, set_iter s ≡ₚ elements s;
}.

(** ** Python strings *)

(** A [str] is a sequence of Unicode code points. *)
Definition str := list N.

(** The [str] of a literal written in ASCII. *)
Definition py (s : string) : str :=
  (λ a, N_of_ascii a) <$> list_ascii_of_string s.

(** [str.isspace] on one code point, the characters [str.strip] removes. *)
Definition is_space (c : N) : bool :=
  ((9 <=? c) && (c <=? 13) || (28 <=? c) && (c <=? 32)
   || (c =? 133) || (c =? 160) || (c =? 5760)
   || (8192 <=? c) && (c <=? 8202)
   || (c =? 8232) || (c =? 8233) || (c =? 8239) || (c =? 8287)
   || (c =? 12288))%N.

Fixpoint lstrip (s : str) : str :=
  match s with
  | c :: s' => if is_space c then lstrip s' else s
  | [] => []
  end.

Definition rstrip (s : str) : str := reverse (lstrip (reverse s)).

Definition strip (s : str) : str := rstrip (lstrip s).

(** ** The data model *)

(** A material data-block, known by its identity. *)
Definition Material := string.

(** [VRMHideMaterialItem]: one line of the check-list. *)
Record VRMHideMaterialItem := {
  material : option Material;
  use_hide : bool;
}.

(** A face as [bmesh] shows it: its material slot index and the indices of
    its vertices. *)
Record Face := {
  material_index : nat;
  verts : list nat;
}.

Inductive CenterMode := CENTROID | ORIGIN.

Section Model.
Context `{VO : VectorOps} `{SO : SetOrder}.

(** A shape key block: a name, a position per vertex and a value. *)
Record ShapeKey := {
  sk_name : str;
  sk_data : list Vector;
  sk_value : float;
}.

(** [obj.data] of a mesh object: [vertices] holds [v.co] in index order,
    [materials] the slots ([None] for an empty slot), [shape_keys] the key
    blocks; [obj.data.shape_keys] is truthy when there is one at least. *)
Record Mesh := {
  vertices : list Vector;
  materials : list (option Material);
  polygons : list Face;
  shape_keys : list ShapeKey;
}.

Record Object := {
  obj_type : string;
  obj_data : Mesh;
  vrm_hide_materials : list VRMHideMaterialItem;
}.

Record Scene := {
  hide_shape_key_name : str;
  hide_shrink_factor : float;
  hide_shrink_center : CenterMode;
}.

Record Context := {
  active_object : option Object;
  scene : Scene;
}.

(** ** Outcomes *)

Inductive Level := INFO | ERROR.

Inductive Message :=
  | SelectMeshObject             (* "Select a mesh object." *)
  | AlreadyHasShapeKeys          (* "Object already has shape keys. ..." *)
  | NoMaterialsSelected          (* "No materials selected for hide." *)
  | NoVerticesFound              (* "No vertices found for selected materials." *)
  | MaterialListUpdated (n : nat)       (* "Material list updated: n materials found" *)
  | HideShapeKeyCreated (key_name : str).   (* "Hide shape key 'name' created! ..." *)

Inductive Status := FINISHED | CANCELLED.

Inductive Exn := IndexError | ZeroDivisionError.

(** What one call of an operator's [execute] gives: the value returned
    with the message reported, or an exception that escaped. *)
Inductive Outcome :=
  | Return (s : Status) (l : Level) (m : Message)
  | Raised (e : Exn).

(** The failures of the specification, by name. *)
Definition NotAMeshError := Return CANCELLED ERROR SelectMeshObject.
Definition ExistingShapeKeysError := Return CANCELLED ERROR AlreadyHasShapeKeys.
Definition NoMaterialsSelectedError := Return CANCELLED ERROR NoMaterialsSelected.
Definition NoAffectedVerticesError := Return CANCELLED ERROR NoVerticesFound.

(** [not obj or obj.type != 'MESH'] *)
Definition not_a_mesh (obj : option Object) : bool :=
  match obj with
  | None => true
  | Some o => negb (String.eqb (obj_type o) "MESH")
  end.

(** ** [sync_material_list] *)

Definition set_items (items : list VRMHideMaterialItem) (o : Object) : Object :=
  {| obj_type := obj_type o; obj_data := obj_data o; vrm_hide_materials := items |}.

(** The body of the loop: a non-null material appends an item. *)
Definition sync_step (items : list VRMHideMaterialItem) (mat : option Material)
  : list VRMHideMaterialItem :=
  match mat with
  | Some m => items ++ [{| material := Some m; use_hide := true |}]
  | None => items
  end.

Definition sync_material_list (obj : option Object) : option Object :=
  if not_a_mesh obj then obj
  else
    match obj with
    | Some o =>
        let cleared := set_items [] o in
        Some (set_items
                (foldl sync_step (vrm_hide_materials cleared)
                       (materials (obj_data o)))
                cleared)
    | None => None
    end.

(** [SyncMaterialsOperator.execute] *)
Definition SyncMaterialsOperator_execute (ctx : Context) : Outcome * Context :=
  let obj := active_object ctx in
  if not_a_mesh obj then (NotAMeshError, ctx)
  else
    let obj' := sync_material_list obj in
    let n := match obj' with Some o => length (vrm_hide_materials o) | None => 0 end in
    (Return FINISHED INFO (MaterialListUpdated n),
     {| active_object := obj'; scene := scene ctx |}).

(** ** Results of the steps that can raise *)

Inductive Res (A : Type) :=
  | Ok (a : A)
  | Err (e : Exn).
Global Arguments Ok {A} a.
Global Arguments Err {A} e.

Definition Res_bind {A B} (r : Res A) (k : A → Res B) : Res B :=
  match r with
  | Ok a => k a
  | Err e => Err e
  end.

Notation "x <-- r ;; k" := (Res_bind r (λ x, k))
  (at level 100, r at next level, right associativity).

(** [xs[i]], which raises out of range (indices here are never negative). *)
Definition index {A} (xs : list A) (i : nat) : Res A :=
  match xs !! i with
  | Some x => Ok x
  | None => Err IndexError
  end.

(** A [for] loop whose body may raise, threading the loop's state. *)
Fixpoint for_each {A S} (body : S → A → Res S) (s : S) (xs : list A) : Res S :=
  match xs with
  | [] => Ok s
  | x :: xs' => s' <-- body s x ;; for_each body s' xs'
  end.

(** ** [CreateHideOperator.execute]: the read-only part *)

(** [item.use_hide and item.material] *)
Definition is_checked (item : VRMHideMaterialItem) : bool :=
  use_hide item && bool_decide (is_Some (material item)).

(** [[i for i, item in enumerate(items) if item.use_hide and item.material]],
    with the enumeration starting at [i]. *)
Fixpoint checked_from (i : nat) (items : list VRMHideMaterialItem) : list nat :=
  match items with
  | [] => []
  | item :: items' =>
      if is_checked item then i :: checked_from (S i) items'
      else checked_from (S i) items'
  end.

Definition checked_indices (items : list VRMHideMaterialItem) : list nat :=
  checked_from 0 items.

(** [key_name = name.strip(); if not key_name: key_name = "Hidden"] *)
Definition target_key_name (name : str) : str :=
  match strip name with
  | [] => py "Hidden"
  | key_name => key_name
  end.

(** The inner loop: every vertex of the face joins the set. *)
Definition add_face_verts (affected : gset nat) (face : Face) : gset nat :=
  foldl (λ acc vert, acc ∪ {[vert]}) affected (verts face).

(** The outer loop: only faces whose slot index is in the checked list. *)
Definition affected_step (checked : list nat) (affected : gset nat) (face : Face)
  : gset nat :=
  if bool_decide (material_index face ∈ checked)
  then add_face_verts affected face
  else affected.

Definition affected_vertices (faces : list Face) (checked : list nat) : gset nat :=
  foldl (affected_step checked) ∅ faces.

(** [[orig_cos[i] for i in affected_verts]] *)
Fixpoint gather (orig_cos : list Vector) (affected : list nat) : Res (list Vector) :=
  match affected with
  | [] => Ok []
  | i :: affected' =>
      co <-- index orig_cos i ;;
      cos <-- gather orig_cos affected' ;;
      Ok (co :: cos)
  end.

(** [sum(aff_cos, Vector()) / len(aff_cos)]; dividing by zero raises. *)
Definition mean (aff_cos : list Vector) : Res Vector :=
  match length aff_cos with
  | 0 => Err ZeroDivisionError
  | n => Ok (vdiv (foldl vadd Vector_zero aff_cos) n)
  end.

Definition shrink_center (center_mode : CenterMode) (orig_cos : list Vector)
    (affected : list nat) : Res Vector :=
  match center_mode with
  | CENTROID => aff_cos <-- gather orig_cos affected ;; mean aff_cos
  | ORIGIN => Ok Vector_zero
  end.

(** The position a vertex at [co] gets. *)
Definition shrink_co (center : Vector) (factor : float) (co : Vector) : Vector :=
  let direction := vsub co center in
  vadd center (vmul direction factor).

(** The body of the shrink loop. *)
Definition shrink_step (orig_cos : list Vector) (center : Vector) (factor : float)
    (shrunk_cos : list Vector) (i : nat) : Res (list Vector) :=
  co <-- index orig_cos i ;;
  Ok (<[i := shrink_co center factor co]> shrunk_cos).

(** [shrunk_cos = orig_cos[:]] and the loop over the affected vertices. *)
Definition shrink (orig_cos : list Vector) (center : Vector) (factor : float)
    (affected : list nat) : Res (list Vector) :=
  for_each (shrink_step orig_cos center factor) orig_cos affected.

(** The values [execute] holds once the shrunk positions are computed. *)
Record Locals := {
  checked : list nat;            (* checked_indices *)
  key_name : str;
  factor : float;
  center_mode : CenterMode;
  affected_verts : gset nat;
  orig_cos : list Vector;
  center : Vector;
  shrunk_cos : list Vector;
}.

(** The read-only part either ends the call or hands over its locals. *)
Inductive Prepared :=
  | Stop (out : Outcome)
  | Go (L : Locals).

Definition of_res {A} (r : Res A) (k : A → Prepared) : Prepared :=
  match r with
  | Ok a => k a
  | Err e => Stop (Raised e)
  end.

(** From the shape key test to the shrunk coordinates; the object is a
    mesh here.  Nothing is written. *)
Definition prepare (o : Object) (sc : Scene) : Prepared :=
  let me := obj_data o in
  match shape_keys me with
  | _ :: _ => Stop ExistingShapeKeysError
  | [] =>
      match checked_indices (vrm_hide_materials o) with
      | [] => Stop NoMaterialsSelectedError
      | checked_indices =>
          let key_name := target_key_name (hide_shape_key_name sc) in
          let factor := hide_shrink_factor sc in
          let center_mode := hide_shrink_center sc in
          let affected_verts := affected_vertices (polygons me) checked_indices in
          if decide (affected_verts = ∅) then Stop NoAffectedVerticesError
          else
            let orig_cos := vertices me in
            of_res (shrink_center center_mode orig_cos (set_iter affected_verts))
              (λ center,
                 of_res (shrink orig_cos center factor (set_iter affected_verts))
                   (λ shrunk_cos,
                      Go {| checked := checked_indices;
                            key_name := key_name;
                            factor := factor;
                            center_mode := center_mode;
                            affected_verts := affected_verts;
                            orig_cos := orig_cos;
                            center := center;
                            shrunk_cos := shrunk_cos |}))
      end
  end.

(** ** [CreateHideOperator.execute]: the writes *)

Definition set_vertices (cos : list Vector) (me : Mesh) : Mesh :=
  {| vertices := cos; materials := materials me; polygons := polygons me;
     shape_keys := shape_keys me |}.

Definition set_shape_keys (keys : list ShapeKey) (me : Mesh) : Mesh :=
  {| vertices := vertices me; materials := materials me; polygons := polygons me;
     shape_keys := keys |}.

(** [obj.shape_key_add(name=name, from_mix=False)]: the host appends a key
    block that captures the live vertex positions, with value [0.0].  The
    block is recorded under the name the add-on passes; what the host does
    with a name already in use is not part of the add-on. *)
Definition shape_key_add (name : str) (me : Mesh) : Mesh :=
  set_shape_keys
    (shape_keys me ++
       [{| sk_name := name; sk_data := vertices me; sk_value := float_zero |}])
    me.

(** [key.value = x] *)
Definition set_value (x : float) (key : ShapeKey) : ShapeKey :=
  {| sk_name := sk_name key; sk_data := sk_data key; sk_value := x |}.

(** [for i, v in enumerate(vertices): v.co = cos[i]], from index [i] on:
    the positions after the loop, and the exception that stopped it. *)
Fixpoint write_cos_from (i : nat) (cos vs : list Vector) : list Vector * option Exn :=
  match vs with
  | [] => ([], None)
  | v :: vs' =>
      match cos !! i with
      | Some co =>
          let '(written, e) := write_cos_from (S i) cos vs' in (co :: written, e)
      | None => (v :: vs', Some IndexError)
      end
  end.

Definition write_cos (cos : list Vector) (me : Mesh) : Mesh * option Exn :=
  let '(written, e) := write_cos_from 0 cos (vertices me) in
  (set_vertices written me, e).

(** From ["Basis"] to the restored positions ([obj.data.update()] only
    tags the mesh for redraw). *)
Definition commit (L : Locals) (me : Mesh) : Mesh * option Exn :=
  let me := shape_key_add (py "Basis") me in
  let '(me, e) := write_cos (shrunk_cos L) me in
  match e with
  | Some e => (me, Some e)
  | None =>
      let hide_sk := length (shape_keys me) in
      let me := shape_key_add (key_name L) me in
      let me := set_shape_keys (alter (set_value float_zero) hide_sk (shape_keys me)) me in
      write_cos (orig_cos L) me
  end.

Definition set_data (me : Mesh) (o : Object) : Object :=
  {| obj_type := obj_type o; obj_data := me;
     vrm_hide_materials := vrm_hide_materials o |}.

Definition CreateHideOperator_execute (ctx : Context) : Outcome * Context :=
  let obj := active_object ctx in
  if not_a_mesh obj then (NotAMeshError, ctx)
  else
    match obj with
    | None => (NotAMeshError, ctx)
    | Some o =>
        match prepare o (scene ctx) with
        | Stop out => (out, ctx)
        | Go L =>
            let '(me, e) := commit L (obj_data o) in
            let ctx' := {| active_object := Some (set_data me o);
                           scene := scene ctx |} in
            match e with
            | Some e => (Raised e, ctx')
            | None => (Return FINISHED INFO (HideShapeKeyCreated (key_name L)), ctx')
            end
        end
    end.

End Model.

(** ** The vocabulary of the specification *)

Section Specification.
Context `{VO : VectorOps}.

(** The selector Refresh is to install for a slot list: one entry,
    checked, per non-null slot, in slot order. *)
Definition selector_of_slots (slots : list (option Material))
  : list VRMHideMaterialItem :=
  (λ m, {| material := Some m; use_hide := true |}) <$> omap id slots.

(** The union over the faces whose slot index is checked, of the face's
    vertex indices. *)
Definition union_of_checked_faces (faces : list Face) (checked : list nat)
  : gset nat :=
  ⋃ ((λ face, list_to_set (verts face)) <$>
       filter (λ face, material_index face ∈ checked) faces).


(** The two key blocks a successful run leaves. *)
Definition basis_key (me : Mesh) : ShapeKey :=
  {| sk_name := py "Basis"; sk_data := vertices me; sk_value := float_zero |}.

Definition hide_key (L : Locals) : ShapeKey :=
  {| sk_name := key_name L; sk_data := shrunk_cos L; sk_value := float_zero |}.

(** The state a successful run leaves. *)
Definition generated (ctx : Context) (o : Object) (L : Locals) : Context :=
  {| active_object :=
       Some (set_data
               (set_shape_keys
                  (shape_keys (obj_data o) ++ [basis_key (obj_data o); hide_key L])
                  (obj_data o))
               o);
     scene := scene ctx |}.

(** The live vertex positions of the active object. *)
Definition live_positions (ctx : Context) : option (list Vector) :=
  (λ o, vertices (obj_data o)) <$> active_object ctx.

(** The key blocks of the active object. *)
Definition live_shape_keys (ctx : Context) : option (list ShapeKey) :=
  (λ o, shape_keys (obj_data o)) <$> active_object ctx.

End Specification.

(** ** The host's instances *)

(** Iteration in ascending order: what CPython does for a set of small
    integers that fills its table without collision, as the vertex indices
    [0 .. n-1] of a face selection do. *)
Definition ascending (s : gset nat) : list nat := merge_sort Nat.le (elements s).

Global Instance ascending_order : SetOrder :=
  {| set_iter := ascending;
     set_iter_perm := λ s, merge_sort_Permutation Nat.le (elements s) |}.

(** IEEE-754 single precision, round to nearest even: the numbers a
    [mathutils.Vector] and a vertex hold. *)
Module Binary32.

Definition prec : Z := 24.
Definition emax : Z := 128.

Definition f32 := spec_float.

Definition add : f32 → f32 → f32 := SFadd prec emax.
Definition sub : f32 → f32 → f32 := SFsub prec emax.
Definition mul : f32 → f32 → f32 := SFmul prec emax.
Definition div : f32 → f32 → f32 := SFdiv prec emax.
Definition eqb : f32 → f32 → bool := SFeqb.

(** The float nearest to an integer. *)
Definition of_Z (n : Z) : f32 := binary_normalize prec emax n 0 false.

Definition zero : f32 := S754_zero false.
Definition one : f32 := Eval vm_compute in of_Z 1.

Record Vec3 := { vx : f32; vy : f32; vz : f32 }.

Definition map2 (f : f32 → f32 → f32) (a b : Vec3) : Vec3 :=
  {| vx := f (vx a) (vx b); vy := f (vy a) (vy b); vz := f (vz a) (vz b) |}.

Definition scale (a : Vec3) (s : f32) : Vec3 :=
  {| vx := mul (vx a) s; vy := mul (vy a) s; vz := mul (vz a) s |}.

(** [Vector / n] multiplies by the reciprocal [1.0f / n]. *)
Definition divide (a : Vec3) (n : nat) : Vec3 :=
  scale a (div one (of_Z (Z.of_nat n))).

(** [==] on floats, component by component. *)
Definition veqb (a b : Vec3) : bool :=
  eqb (vx a) (vx b) && eqb (vy a) (vy b) && eqb (vz a) (vz b).

Definition is_finite (a : f32) : bool :=
  match a with
  | S754_zero _ | S754_finite _ _ _ => true
  | _ => false
  end.

Definition is_nan (a : f32) : bool :=
  match a with
  | S754_nan => true
  | _ => false
  end.

Definition valid (a : f32) : bool := valid_binary prec emax a.

Global Instance ops : VectorOps :=
  {| float := f32;
     Vector := Vec3;
     float_zero := zero;
     Vector_zero := {| vx := zero; vy := zero; vz := zero |};
     vadd := map2 add;
     vsub := map2 sub;
     vmul := scale;
     vdiv := divide |}.

Definition vvalid (a : Vec3) : bool :=
  valid (vx a) && valid (vy a) && valid (vz a).

Definition vfinite (a : Vec3) : bool :=
  is_finite (vx a) && is_finite (vy a) && is_finite (vz a).

Definition vnan (a : Vec3) : bool :=
  is_nan (vx a) || is_nan (vy a) || is_nan (vz a).

(** The float nearest to [n / d] and the vector with integer
    coordinates, to write inputs with. *)
Definition ratio (n d : Z) : f32 := div (of_Z n) (of_Z d).

Definition vec (a b c : Z) : Vec3 := {| vx := of_Z a; vy := of_Z b; vz := of_Z c |}.

(** A mantissa shifted left by the 23 bits of the mantissa of [one]. *)
Definition shift23 (m : positive) : positive := (m * 8388608)%positive.

End Binary32.

(** ** Scenes to run the operators on *)

Definition checked_item (m : Material) : VRMHideMaterialItem :=
  {| material := Some m; use_hide := true |}.

Definition unchecked_item (m : Material) : VRMHideMaterialItem :=
  {| material := Some m; use_hide := false |}.

Definition quad (slot : nat) (a b c d : nat) : Face :=
  {| material_index := slot; verts := [a; b; c; d] |}.

(** The cube of side 2 about the origin: 8 vertices, 6 faces. *)
Definition cube_vertices : list Binary32.Vec3 :=
  [ Binary32.vec 1 1 1; Binary32.vec 1 1 (-1); Binary32.vec 1 (-1) 1;
    Binary32.vec 1 (-1) (-1); Binary32.vec (-1) 1 1; Binary32.vec (-1) 1 (-1);
    Binary32.vec (-1) (-1) 1; Binary32.vec (-1) (-1) (-1) ].

(** The faces of the cube; the first takes slot [top], the others slot
    [rest]. *)
Definition cube_faces (top rest : nat) : list Face :=
  [ quad top 0 4 6 2; quad rest 3 2 6 7; quad rest 7 6 4 5;
    quad rest 5 1 3 7; quad rest 1 0 2 3; quad rest 5 4 0 1 ].

Definition mesh_object (me : Mesh) (items : list VRMHideMaterialItem) : Object :=
  {| obj_type := "MESH"; obj_data := me; vrm_hide_materials := items |}.

(** One material on every face, checked. *)
Definition cube_mesh : Mesh :=
  {| vertices := cube_vertices; materials := [Some "M0"];
     polygons := cube_faces 0 0; shape_keys := [] |}.

Definition cube_object : Object := mesh_object cube_mesh [checked_item "M0"].

(** The scene as registered: name "Hidden", factor 0.01, centroid. *)
Definition cube_scene : Scene :=
  {| hide_shape_key_name := py "Hidden";
     hide_shrink_factor := Binary32.ratio 1 100;
     hide_shrink_center := CENTROID |}.

Definition cube_context : Context :=
  {| active_object := Some cube_object; scene := cube_scene |}.

(** Two materials, the first face on the first, only that one checked. *)
Definition split_cube_mesh : Mesh :=
  {| vertices := cube_vertices; materials := [Some "M0"; Some "M1"];
     polygons := cube_faces 0 1; shape_keys := [] |}.

Definition split_cube_object : Object :=
  mesh_object split_cube_mesh [checked_item "M0"; unchecked_item "M1"].







Definition nothing_checked_object : Object :=
  mesh_object cube_mesh
    [unchecked_item "M0"; {| material := None; use_hide := true |}].

Definition nothing_checked_context : Context :=
  {| active_object := Some nothing_checked_object; scene := cube_scene |}.




(** The cube with a key name that has a space at each end. *)
Definition padded_name_scene : Scene :=
  {| hide_shape_key_name := py " Foo ";
     hide_shrink_factor := Binary32.ratio 1 100;
     hide_shrink_center := CENTROID |}.

Definition padded_name_context : Context :=
  {| active_object := Some cube_object; scene := padded_name_scene |}.

(** A quad with one corner far from the others, [2^60] along x, shrunk
    about its centroid with factor 1.0. *)
Definition far_quad_mesh : Mesh :=
  {| vertices := [ Binary32.vec (2 ^ 60) 0 0; Binary32.vec 1 0 0;
                   Binary32.vec 1 1 0; Binary32.vec 0 1 0 ];
     materials := [Some "M0"];
     polygons := [quad 0 0 1 2 3]; shape_keys := [] |}.

Definition far_quad_object : Object := mesh_object far_quad_mesh [checked_item "M0"].

Definition factor_one_scene : Scene :=
  {| hide_shape_key_name := py "Hidden";
     hide_shrink_factor := Binary32.one;
     hide_shrink_center := CENTROID |}.

(** A quad that spans the whole range: corners at x = M, -M, -M, 0 with M
    the largest float, shrunk about its centroid with factor 0.0. *)
Definition max_float : Z := (2 ^ 24 - 1) * 2 ^ 104.

Definition huge_quad_mesh : Mesh :=
  {| vertices := [ Binary32.vec max_float 0 0; Binary32.vec (- max_float) 0 0;
                   Binary32.vec (- max_float) 1 0; Binary32.vec 0 1 0 ];
     materials := [Some "M0"];
     polygons := [quad 0 0 1 2 3]; shape_keys := [] |}.

Definition huge_quad_object : Object := mesh_object huge_quad_mesh [checked_item "M0"].

Definition factor_zero_scene : Scene :=
  {| hide_shape_key_name := py "Hidden";
     hide_shrink_factor := Binary32.zero;
     hide_shrink_center := CENTROID |}.

(** A quad of ordinary size, corners at x = 0.1, 0.2, 0.3, 0.7. *)
Definition small_quad_mesh : Mesh :=
  {| vertices :=
       [ {| Binary32.vx := Binary32.ratio 1 10; Binary32.vy := Binary32.zero;
            Binary32.vz := Binary32.zero |};
         {| Binary32.vx := Binary32.ratio 2 10; Binary32.vy := Binary32.zero;
            Binary32.vz := Binary32.zero |};
         {| Binary32.vx := Binary32.ratio 3 10; Binary32.vy := Binary32.one;
            Binary32.vz := Binary32.zero |};
         {| Binary32.vx := Binary32.ratio 7 10; Binary32.vy := Binary32.one;
            Binary32.vz := Binary32.zero |} ];
     materials := [Some "M0"];
     polygons := [quad 0 0 1 2 3]; shape_keys := [] |}.

Definition small_quad_object : Object :=
  mesh_object small_quad_mesh [checked_item "M0"].

(** Three slots, the middle one empty, under a selector left from before. *)
Definition gapped_mesh : Mesh :=
  {| vertices := cube_vertices; materials := [Some "A"; None; Some "B"];
     polygons := cube_faces 0 2; shape_keys := [] |}.

Definition gapped_object : Object := mesh_object gapped_mesh [unchecked_item "C"].

Definition gapped_context : Context :=
  {| active_object := Some gapped_object; scene := cube_scene |}.

(** Two slots, both filled; the user has unchecked the second entry. *)
Definition two_slot_mesh : Mesh :=
  {| vertices := cube_vertices; materials := [Some "A"; Some "B"];
     polygons := cube_faces 0 1; shape_keys := [] |}.

Definition two_slot_object : Object := mesh_object two_slot_mesh [].

Definition two_slot_items : list VRMHideMaterialItem :=
  [checked_item "A"; unchecked_item "B"].

(** ** The rest of the add-on: the panel and the registration *)

(** What [HidePanel.draw] lays out.  A check box is bound to a selector
    entry, told here by its position in the collection, and shows the
    entry's flag. *)
#[warnings="-register-all"]
Inductive Widget :=
  | Label (text : string)                    (* layout.label(text=...) *)
  | SceneProp (name : string)                (* layout.prop(context.scene, name) *)
  | OperatorButton (idname icon : string)    (* layout.operator(idname, icon=...) *)
  | Checkbox (item : nat) (ticked : bool)    (* row.prop(item, "use_hide", text="") *)
  | Row (children : list Widget)             (* box.row() *)
  | Box (children : list Widget).            (* layout.box() *)

(** The loop over the selector: a row per entry that holds a material;
    [item.material.name] is the material's identity. *)
Fixpoint draw_rows (i : nat) (items : list VRMHideMaterialItem) : list Widget :=
  match items with
  | [] => []
  | item :: items' =>
      match material item with
      | Some mat => Row [Checkbox i (use_hide item); Label mat] :: draw_rows (S i) items'
      | None => draw_rows (S i) items'
      end
  end.

(** The rows of a panel read back: the entry, its tick and its label. *)
Definition row_entry (w : Widget) : option (nat * bool * string) :=
  match w with
  | Row [Checkbox i ticked; Label text] => Some (i, ticked, text)
  | _ => None
  end.

Definition box_rows (w : Widget) : list (nat * bool * string) :=
  match w with
  | Box children => omap row_entry children
  | _ => []
  end.

Definition panel_rows (panel : list Widget) : list (nat * bool * string) :=
  panel ≫= box_rows.

(** The buttons of a panel, by operator name, at the top level and in the
    boxes. *)
Definition button_idname (w : Widget) : option string :=
  match w with
  | OperatorButton idname _ => Some idname
  | _ => None
  end.

Definition widget_buttons (w : Widget) : list string :=
  match w with
  | OperatorButton idname _ => [idname]
  | Box children => omap button_idname children
  | _ => []
  end.

Definition panel_buttons (panel : list Widget) : list string :=
  panel ≫= widget_buttons.

(** [bl_idname] of the two operators. *)
Definition SyncMaterialsOperator_bl_idname : string := "object.sync_hide_materials".
Definition CreateHideOperator_bl_idname : string := "object.create_material_hide".

(** The registration of the add-on with the host. *)
Inductive RegExn :=
  | ValueError          (* register_class: already registered *)
  | RuntimeError        (* unregister_class: not registered *)
  | AttributeError.     (* del of an attribute that is not there *)

(** A property definition, with what the source gives it apart from the
    texts shown to the user; a float is written as numerator and
    denominator. *)
Inductive PropDef :=
  | CollectionProperty (type : string)
  | StringProperty (default : str)
  | FloatProperty (default min max : Z * Z) (subtype : string)
  | EnumProperty (items : list string) (default : string).

(** What the host holds: the registered classes, in registration order,
    and the attributes set on [bpy.types.Object] and [bpy.types.Scene]. *)
Record Registry := {
  registered : list string;
  Object_attrs : gmap string PropDef;
  Scene_attrs : gmap string PropDef;
}.

Inductive HostType := ObjectType | SceneType.

(** One statement of [register] or [unregister]. *)
Inductive RegStep :=
  | register_class (cls : string)
  | unregister_class (cls : string)
  | set_attr (ty : HostType) (name : string) (def : PropDef)
  | del_attr (ty : HostType) (name : string).

Definition attrs_of (ty : HostType) (r : Registry) : gmap string PropDef :=
  match ty with
  | ObjectType => Object_attrs r
  | SceneType => Scene_attrs r
  end.

Definition with_attrs (ty : HostType) (attrs : gmap string PropDef) (r : Registry)
  : Registry :=
  match ty with
  | ObjectType =>
      {| registered := registered r; Object_attrs := attrs;
         Scene_attrs := Scene_attrs r |}
  | SceneType =>
      {| registered := registered r; Object_attrs := Object_attrs r;
         Scene_attrs := attrs |}
  end.

Definition with_registered (classes : list string) (r : Registry) : Registry :=
  {| registered := classes; Object_attrs := Object_attrs r;
     Scene_attrs := Scene_attrs r |}.

(** The host's part: a class registers once, only a registered class
    unregisters, an assignment overwrites, a [del] needs the attribute. *)
Definition reg_step (r : Registry) (step : RegStep) : RegExn + Registry :=
  match step with
  | register_class cls =>
      if bool_decide (cls ∈ registered r) then inl ValueError
      else inr (with_registered (registered r ++ [cls]) r)
  | unregister_class cls =>
      if bool_decide (cls ∈ registered r)
      then inr (with_registered (filter (λ c, c ≠ cls) (registered r)) r)
      else inl RuntimeError
  | set_attr ty name def => inr (with_attrs ty (<[name := def]> (attrs_of ty r)) r)
  | del_attr ty name =>
      match attrs_of ty r !! name with
      | Some _ => inr (with_attrs ty (delete name (attrs_of ty r)) r)
      | None => inl AttributeError
      end
  end.

(** Statements in sequence; an exception stops the run where it is, with
    what was done before still done. *)
Fixpoint run_steps (steps : list RegStep) (r : Registry) : option RegExn * Registry :=
  match steps with
  | [] => (None, r)
  | step :: steps' =>
      match reg_step r step with
      | inl e => (Some e, r)
      | inr r' => run_steps steps' r'
      end
  end.

(** [classes] *)
Definition classes : list string :=
  ["VRMHideMaterialItem"; "SyncMaterialsOperator"; "CreateHideOperator"; "HidePanel"].

(** [register()] *)
Definition register_steps : list RegStep :=
  (register_class <$> classes) ++
  [ set_attr ObjectType "vrm_hide_materials" (CollectionProperty "VRMHideMaterialItem");
    set_attr SceneType "hide_shape_key_name" (StringProperty (py "Hidden"));
    set_attr SceneType "hide_shrink_factor" (FloatProperty (1, 100)%Z (0, 1)%Z (1, 1)%Z "FACTOR");
    set_attr SceneType "hide_shrink_center"
      (EnumProperty ["CENTROID"; "ORIGIN"] "CENTROID") ].

Definition register (r : Registry) : option RegExn * Registry :=
  run_steps register_steps r.

(** [unregister()] *)
Definition unregister_steps : list RegStep :=
  [ del_attr ObjectType "vrm_hide_materials";
    del_attr SceneType "hide_shape_key_name";
    del_attr SceneType "hide_shrink_factor";
    del_attr SceneType "hide_shrink_center" ] ++
  (unregister_class <$> reverse classes).

Definition unregister (r : Registry) : option RegExn * Registry :=
  run_steps unregister_steps r.

(** The states a run goes through, one per statement done. *)
Fixpoint trace (steps : list RegStep) (r : Registry) : list Registry :=
  match steps with
  | [] => []
  | step :: steps' =>
      match reg_step r step with
      | inl _ => []
      | inr r' => r' :: trace steps' r'
      end
  end.

(** Every collection property on objects is of a registered class. *)
Definition collections_typed (r : Registry) : Prop :=
  ∀ name cls,
    Object_attrs r !! name = Some (CollectionProperty cls) → cls ∈ registered r.

(** The host before the add-on is enabled, as far as the add-on goes. *)
Definition empty_registry : Registry :=
  {| registered := []; Object_attrs := ∅; Scene_attrs := ∅ |}.

(** Iteration in descending order, another enumeration of a set. *)
Definition descending (s : gset nat) : list nat := reverse (ascending s).

Definition descending_order : SetOrder :=
  {| set_iter := descending;
     set_iter_perm := λ s,
       perm_trans (reverse_Permutation (ascending s))
                  (merge_sort_Permutation Nat.le (elements s)) |}.

Section Coverage.
Context `{VO : VectorOps}.

(** A mesh whose faces name vertices it has, as every mesh of the host
    does. *)
Definition mesh_wf (me : Mesh) : Prop :=
  Forall (λ face, Forall (λ v, v < length (vertices me)) (verts face))
         (polygons me).

(** [HidePanel.draw] *)
Definition HidePanel_draw (ctx : Context) : list Widget :=
  let obj := active_object ctx in
  if not_a_mesh obj then [Label "Select a mesh object"]
  else
    match obj with
    | None => [Label "Select a mesh object"]
    | Some o =>
        [ SceneProp "hide_shape_key_name";
          SceneProp "hide_shrink_factor";
          SceneProp "hide_shrink_center";
          Box (Label "Materials to Hide/Shrink"
               :: OperatorButton "object.sync_hide_materials" "FILE_REFRESH"
               :: draw_rows 0 (vrm_hide_materials o));
          OperatorButton "object.create_material_hide" "SHAPEKEY_DATA" ]
    end.

(** A mesh with other faces, and with another slot list. *)
Definition with_polygons (faces : list Face) (me : Mesh) : Mesh :=
  {| vertices := vertices me; materials := materials me; polygons := faces;
     shape_keys := shape_keys me |}.

Definition with_materials (slots : list (option Material)) (me : Mesh) : Mesh :=
  {| vertices := vertices me; materials := slots; polygons := polygons me;
     shape_keys := shape_keys me |}.

End Coverage.

(** The two-slot cube as Generate finds it: refreshed, then the second
    entry unchecked by the user. *)
Definition two_slot_generate_object : Object :=
  mesh_object two_slot_mesh two_slot_items.

Definition two_slot_generate_context : Context :=
  {| active_object := Some two_slot_generate_object; scene := cube_scene |}.

Definition split_cube_context : Context :=
  {| active_object := Some split_cube_object; scene := cube_scene |}.

(** The cube moved off the origin, to x in 1 .. 3. *)
Definition origin_cube_object : Object :=
  mesh_object
    (with_polygons (cube_faces 0 0)
       {| vertices := (λ co, vadd co (Binary32.vec 2 0 0)) <$> cube_vertices;
          materials := [Some "M0"]; polygons := []; shape_keys := [] |})
    [checked_item "M0"].

(** The cube shrunk about the origin of the object. *)
Definition origin_scene : Scene :=
  {| hide_shape_key_name := py "Hidden";
     hide_shrink_factor := Binary32.ratio 1 100;
     hide_shrink_center := ORIGIN |}.

Definition origin_context : Context :=
  {| active_object := Some cube_object; scene := origin_scene |}.

(** * Properties *)

(** ** The definitions on small inputs *)

Example strip_both_ends : strip (py "  a b ") = py "a b".
Proof. reflexivity. Qed.

Example strip_unicode_space : strip [160; 65; 8195; 10]%N = [65]%N.
Proof. reflexivity. Qed.

Example blank_name_is_Hidden : target_key_name (py " ") = py "Hidden".
Proof. reflexivity. Qed.

Example checked_indices_skip :
  checked_indices
    [ checked_item "A"; unchecked_item "B";
      {| material := None; use_hide := true |}; checked_item "C" ]
  = [0; 3].
Proof. reflexivity. Qed.

Example affected_of_two_faces :
  ascending (affected_vertices [quad 0 0 1 2 3; quad 1 2 3 4 5; quad 0 3 6 7 0] [0])
  = [0; 1; 2; 3; 6; 7].
Proof. reflexivity. Qed.

Example write_cos_short :
  let co := λ n : nat, Binary32.vec (Z.of_nat n) 0 0 in
  write_cos_from 0 [co 1; co 2] [co 7; co 8; co 9]
  = ([co 1; co 2; co 9], Some IndexError).
Proof. reflexivity. Qed.

Section Properties.
Context `{VO : VectorOps} `{SO : SetOrder}.

(** ** Refresh *)

Lemma foldl_sync_step items slots :
  foldl sync_step items slots = items ++ selector_of_slots slots.
Proof.
  revert items. induction slots as [|[m|] slots IH]; intros items; simpl.
  - by rewrite app_nil_r.
  - rewrite IH. unfold selector_of_slots. simpl. by rewrite <- app_assoc.
  - apply IH.
Qed.

Lemma not_a_mesh_false obj :
  not_a_mesh obj = false ↔ ∃ o, obj = Some o ∧ obj_type o = "MESH".
Proof.
  destruct obj as [o|]; simpl.
  - rewrite negb_false_iff, String.eqb_eq. split.
    + intros Hty. by exists o.
    + by intros (o' & [= <-] & Hty).
  - split; [done | by intros (o' & ? & _)].
Qed.

Lemma sync_material_list_mesh o :
  obj_type o = "MESH" →
  sync_material_list (Some o)
  = Some (set_items (selector_of_slots (materials (obj_data o))) o).
Proof.
  intros Hty. unfold sync_material_list.
  assert (not_a_mesh (Some o) = false) as -> by (apply not_a_mesh_false; eauto).
  simpl. by rewrite foldl_sync_step.
Qed.

Lemma selector_of_slots_flags slots :
  Forall (λ item, use_hide item = true) (selector_of_slots slots).
Proof. unfold selector_of_slots. apply Forall_fmap, Forall_true. done. Qed.

Lemma selector_of_slots_materials slots :
  material <$> selector_of_slots slots = Some <$> omap id slots.
Proof. unfold selector_of_slots. by rewrite <- list_fmap_compose. Qed.

Lemma SyncMaterialsOperator_execute_mesh (ctx : Context) (o : Object) :
  active_object ctx = Some o →
  obj_type o = "MESH" →
  let items := selector_of_slots (materials (obj_data o)) in
  SyncMaterialsOperator_execute ctx
  = (Return FINISHED INFO (MaterialListUpdated (length items)),
     {| active_object := Some (set_items items o); scene := scene ctx |}).
Proof.
  intros Hobj Hty items. unfold SyncMaterialsOperator_execute. rewrite Hobj.
  assert (not_a_mesh (Some o) = false) as -> by (apply not_a_mesh_false; eauto).
  simpl. by rewrite sync_material_list_mesh.
Qed.

(** C9.  Refresh on a mesh object throws the old selector away and
    installs one checked entry per non-null material slot, in slot order,
    skipping the null slots; it never fails for want of materials: with no
    material at all the selector is empty and the operator still finishes,
    reporting the count. *)
Theorem refresh_rebuilds_selector (ctx : Context) (o : Object) :
  active_object ctx = Some o →
  obj_type o = "MESH" →
  let items := selector_of_slots (materials (obj_data o)) in
  sync_material_list (Some o) = Some (set_items items o)
  ∧ SyncMaterialsOperator_execute ctx
    = (Return FINISHED INFO (MaterialListUpdated (length items)),
       {| active_object := Some (set_items items o); scene := scene ctx |})
  ∧ material <$> items = Some <$> omap id (materials (obj_data o))
  ∧ Forall (λ item, use_hide item = true) items
  ∧ (omap id (materials (obj_data o)) = [] → items = []).
Proof.
  intros Hobj Hty items.
  split; [by apply sync_material_list_mesh|].
  split; [by apply SyncMaterialsOperator_execute_mesh|].
  split; [apply selector_of_slots_materials|].
  split; [apply selector_of_slots_flags|].
  intros Hnone. subst items. unfold selector_of_slots. by rewrite Hnone.
Qed.

(** C10.  Refreshing twice in a row, the slot list unchanged, leaves after
    the second call the state the first call left: the same materials in
    the same order, every flag true both times. *)
Theorem refresh_idempotent (ctx : Context) (o : Object) :
  active_object ctx = Some o →
  obj_type o = "MESH" →
  let ctx1 := (SyncMaterialsOperator_execute ctx).2 in
  let ctx2 := (SyncMaterialsOperator_execute ctx1).2 in
  ∃ o1 o2,
    active_object ctx1 = Some o1 ∧ active_object ctx2 = Some o2
    ∧ material <$> vrm_hide_materials o2 = material <$> vrm_hide_materials o1
    ∧ Forall (λ item, use_hide item = true) (vrm_hide_materials o1)
    ∧ Forall (λ item, use_hide item = true) (vrm_hide_materials o2)
    ∧ ctx2 = ctx1.
Proof.
  intros Hobj Hty ctx1 ctx2.
  set (items := selector_of_slots (materials (obj_data o))).
  set (o1 := set_items items o).
  assert (ctx1 = {| active_object := Some o1; scene := scene ctx |}) as Hctx1.
  { subst ctx1. by rewrite (SyncMaterialsOperator_execute_mesh ctx o Hobj Hty). }
  assert (ctx2 = ctx1) as Hctx2.
  { subst ctx2. rewrite Hctx1.
    by rewrite (SyncMaterialsOperator_execute_mesh
                  {| active_object := Some o1; scene := scene ctx |} o1 eq_refl Hty). }
  exists o1, o1. rewrite Hctx2, Hctx1. simpl.
  repeat split; try done; apply selector_of_slots_flags.
Qed.

(** ** The checked indices *)

Lemma elem_of_checked_from k items i :
  i ∈ checked_from k items
  ↔ ∃ item, k ≤ i ∧ items !! (i - k) = Some item ∧ is_checked item = true.
Proof.
  revert k. induction items as [|item items IH]; intros k; simpl.
  - split; [by intros ?%elem_of_nil | by intros (? & _ & ? & _)].
  - assert (i ∈ checked_from (S k) items
            ↔ ∃ item', k < i ∧ items !! (i - S k) = Some item'
                       ∧ is_checked item' = true) as Htail.
    { rewrite IH. by apply exist_proper; intros item'. }
    destruct (is_checked item) eqn:Hc; [rewrite elem_of_cons|]; rewrite Htail; split.
    + intros [->|(item' & Hlt & Hl & Hc')].
      * exists item. by rewrite Nat.sub_diag.
      * exists item'. split; [lia|]. split; [|done].
        by replace (i - k) with (S (i - S k)) by lia.
    + intros (item' & Hle & Hl & Hc').
      destruct (decide (i = k)) as [->|Hne]; [by left|right].
      exists item'. split; [lia|]. split; [|done].
      by replace (i - k) with (S (i - S k)) in Hl by lia.
    + intros (item' & Hlt & Hl & Hc').
      exists item'. split; [lia|]. split; [|done].
      by replace (i - k) with (S (i - S k)) by lia.
    + intros (item' & Hle & Hl & Hc').
      destruct (decide (i = k)) as [->|Hne].
      * rewrite Nat.sub_diag in Hl. simpl in Hl. congruence.
      * exists item'. split; [lia|]. split; [|done].
        by replace (i - k) with (S (i - S k)) in Hl by lia.
Qed.

Lemma is_checked_true item :
  is_checked item = true ↔ use_hide item = true ∧ is_Some (material item).
Proof.
  unfold is_checked. rewrite andb_true_iff, bool_decide_eq_true. done.
Qed.

Lemma elem_of_checked_indices items i :
  i ∈ checked_indices items
  ↔ ∃ item, items !! i = Some item ∧ use_hide item = true ∧ is_Some (material item).
Proof.
  unfold checked_indices. rewrite elem_of_checked_from.
  apply exist_proper; intros item. rewrite Nat.sub_0_r, is_checked_true.
  split; [by intros (_ & ? & ? & ?) | intros (? & ? & ?); repeat split; [lia|done..]].
Qed.


(** ** The affected vertices *)

Lemma elem_of_add_face_verts affected face v :
  v ∈ add_face_verts affected face ↔ v ∈ affected ∨ v ∈ verts face.
Proof.
  unfold add_face_verts. generalize (verts face) as vs. intros vs.
  revert affected. induction vs as [|w vs IH]; intros affected; simpl.
  - rewrite elem_of_nil. tauto.
  - rewrite IH, elem_of_union, elem_of_singleton, elem_of_cons. tauto.
Qed.

Lemma elem_of_affected_fold checked affected faces v :
  v ∈ foldl (affected_step checked) affected faces
  ↔ v ∈ affected
    ∨ ∃ face, face ∈ faces ∧ material_index face ∈ checked ∧ v ∈ verts face.
Proof.
  revert affected. induction faces as [|face faces IH]; intros affected; simpl.
  - split; [by left | intros [?|(? & ?%elem_of_nil & _)]; done].
  - rewrite IH. unfold affected_step. case_bool_decide as Hm.
    + rewrite elem_of_add_face_verts. split.
      * intros [[?|?]|(f & ? & ? & ?)]; [by left| |].
        -- right. exists face. split; [left|done].
        -- right. exists f. split; [by right|done].
      * intros [?|(f & [->|?]%elem_of_cons & ? & ?)]; [by left; left| |].
        -- by left; right.
        -- right. by exists f.
    + split.
      * intros [?|(f & ? & ? & ?)]; [by left|].
        right. exists f. split; [by right|done].
      * intros [?|(f & [->|?]%elem_of_cons & ? & ?)]; [by left|done|].
        right. by exists f.
Qed.

Lemma elem_of_affected_vertices faces checked v :
  v ∈ affected_vertices faces checked
  ↔ ∃ face, face ∈ faces ∧ material_index face ∈ checked ∧ v ∈ verts face.
Proof.
  unfold affected_vertices. rewrite elem_of_affected_fold, elem_of_empty. tauto.
Qed.

Lemma affected_vertices_union faces checked :
  affected_vertices faces checked = union_of_checked_faces faces checked.
Proof.
  apply set_eq. intros v. rewrite elem_of_affected_vertices.
  unfold union_of_checked_faces. rewrite elem_of_union_list. split.
  - intros (face & Hin & Hm & Hv). exists (list_to_set (verts face)).
    split; [|by apply elem_of_list_to_set].
    apply list_elem_of_fmap. exists face. split; [done|].
    by apply list_elem_of_filter.
  - intros (X & (face & -> & [Hm Hin]%list_elem_of_filter)%list_elem_of_fmap & Hv).
    exists face. by rewrite elem_of_list_to_set in Hv.
Qed.

Lemma elem_of_set_iter (s : gset nat) i : i ∈ set_iter s ↔ i ∈ s.
Proof. by rewrite set_iter_perm, elem_of_elements. Qed.


(** ** What a run that reaches the shrink computation holds *)

Lemma prepare_Go o sc L :
  prepare o sc = Go L →
  shape_keys (obj_data o) = []
  ∧ checked L = checked_indices (vrm_hide_materials o)
  ∧ checked L ≠ []
  ∧ key_name L = target_key_name (hide_shape_key_name sc)
  ∧ factor L = hide_shrink_factor sc
  ∧ center_mode L = hide_shrink_center sc
  ∧ affected_verts L = affected_vertices (polygons (obj_data o)) (checked L)
  ∧ affected_verts L ≠ ∅
  ∧ orig_cos L = vertices (obj_data o)
  ∧ shrink_center (center_mode L) (orig_cos L) (set_iter (affected_verts L))
    = Ok (center L)
  ∧ shrink (orig_cos L) (center L) (factor L) (set_iter (affected_verts L))
    = Ok (shrunk_cos L).
Proof.
  unfold prepare. destruct (shape_keys (obj_data o)) as [|? ?]; [|done].
  destruct (checked_indices (vrm_hide_materials o)) as [|i l] eqn:Hchecked; [done|].
  case_decide as Hne; [done|].
  destruct (shrink_center _ _ _) as [c|] eqn:Hcenter; [|done]. simpl.
  destruct (shrink _ _ _ _) as [cos|] eqn:Hshrink; [|done]. simpl.
  intros [= <-]. simpl. by repeat split.
Qed.

(** ** The shrink loop *)

Lemma index_Ok {A} (xs : list A) i x : index xs i = Ok x ↔ xs !! i = Some x.
Proof. unfold index. destruct (xs !! i); split; congruence. Qed.

Lemma shrink_loop orig_cos center factor affected acc out :
  length acc = length orig_cos →
  for_each (shrink_step orig_cos center factor) acc affected = Ok out →
  length out = length orig_cos
  ∧ ∀ i, (i ∈ affected → out !! i = shrink_co center factor <$> orig_cos !! i)
         ∧ (i ∉ affected → out !! i = acc !! i).
Proof.
  revert acc. induction affected as [|j affected IH]; intros acc Hlen; simpl.
  - intros [= <-]. split; [done|]. intros i. split; [by intros ?%elem_of_nil|done].
  - unfold shrink_step at 1. destruct (index orig_cos j) as [co|] eqn:Hj; [|done].
    simpl. apply index_Ok in Hj. intros Hrest.
    apply IH in Hrest as [Hlen' Hout]; [|by rewrite length_insert].
    split; [done|]. intros i. destruct (Hout i) as [Hin Hnotin]. split.
    + intros [->|Hi]%elem_of_cons; [|by apply Hin].
      destruct (decide (j ∈ affected)) as [Hj'|Hj']; [by apply Hin|].
      rewrite Hnotin, Hj by done. simpl.
      apply list_lookup_insert_eq. rewrite Hlen. by eapply lookup_lt_Some.
    + intros [Hne Hi]%not_elem_of_cons.
      rewrite Hnotin by done. by apply list_lookup_insert_ne.
Qed.

Lemma shrink_Ok orig_cos center factor affected shrunk_cos :
  shrink orig_cos center factor affected = Ok shrunk_cos →
  length shrunk_cos = length orig_cos
  ∧ ∀ i, (i ∈ affected →
          shrunk_cos !! i = shrink_co center factor <$> orig_cos !! i)
         ∧ (i ∉ affected → shrunk_cos !! i = orig_cos !! i).
Proof. by apply shrink_loop. Qed.


(** ** The writes *)

Lemma write_cos_from_full i cos vs :
  length cos = i + length vs →
  write_cos_from i cos vs = (drop i cos, None).
Proof.
  revert i. induction vs as [|v vs IH]; intros i Hlen; simpl in *.
  - rewrite drop_ge by lia. done.
  - destruct (lookup_lt_is_Some_2 cos i) as [co Hco]; [lia|].
    rewrite Hco, IH by lia. by rewrite (drop_S _ _ _ Hco).
Qed.

Lemma write_cos_same_length cos me :
  length cos = length (vertices me) →
  write_cos cos me = (set_vertices cos me, None).
Proof.
  intros Hlen. unfold write_cos. by rewrite write_cos_from_full.
Qed.

Lemma commit_Ok L me :
  length (shrunk_cos L) = length (vertices me) →
  orig_cos L = vertices me →
  commit L me
  = (set_shape_keys (shape_keys me ++ [basis_key me; hide_key L]) me, None).
Proof.
  intros Hlen Horig. unfold commit.
  rewrite write_cos_same_length by done.
  rewrite write_cos_same_length by (simpl; by rewrite Horig, Hlen).
  rewrite Horig. unfold shape_key_add, set_shape_keys, set_vertices. simpl.
  rewrite <- (Nat.add_0_r (length (shape_keys me ++ _))), alter_app_r. simpl.
  by rewrite <- app_assoc.
Qed.

Lemma prepare_Go_lengths o sc L :
  prepare o sc = Go L →
  length (shrunk_cos L) = length (vertices (obj_data o))
  ∧ orig_cos L = vertices (obj_data o).
Proof.
  intros (_ & _ & _ & _ & _ & _ & _ & _ & Horig & _ & Hshrink)%prepare_Go.
  apply shrink_Ok in Hshrink as [Hlen _]. by rewrite Hlen, Horig.
Qed.

Lemma CreateHideOperator_execute_not_mesh ctx :
  not_a_mesh (active_object ctx) = true →
  CreateHideOperator_execute ctx = (NotAMeshError, ctx).
Proof. intros Hnot. unfold CreateHideOperator_execute. by rewrite Hnot. Qed.

Lemma CreateHideOperator_execute_mesh ctx o :
  active_object ctx = Some o →
  obj_type o = "MESH" →
  CreateHideOperator_execute ctx
  = match prepare o (scene ctx) with
    | Stop out => (out, ctx)
    | Go L => (Return FINISHED INFO (HideShapeKeyCreated (key_name L)),
               generated ctx o L)
    end.
Proof.
  intros Hobj Hty. unfold CreateHideOperator_execute. rewrite Hobj.
  assert (not_a_mesh (Some o) = false) as -> by (apply not_a_mesh_false; eauto).
  destruct (prepare o (scene ctx)) as [out|L] eqn:Hprep; [done|].
  apply prepare_Go_lengths in Hprep as [Hlen Horig].
  by rewrite commit_Ok.
Qed.

(** A stop of the read-only part is never a success. *)
Lemma prepare_Stop o sc out :
  prepare o sc = Stop out →
  (∃ m, out = Return CANCELLED ERROR m) ∨ (∃ e, out = Raised e).
Proof.
  unfold prepare. destruct (shape_keys (obj_data o)) as [|? ?].
  2:{ intros [= <-]. left. by eexists. }
  destruct (checked_indices (vrm_hide_materials o)) as [|i l].
  { intros [= <-]. left. by eexists. }
  case_decide.
  { intros [= <-]. left. by eexists. }
  destruct (shrink_center _ _ _) as [c|e]; simpl.
  2:{ intros [= <-]. right. by eexists. }
  destruct (shrink _ _ _ _) as [cos|e]; simpl; [done|].
  intros [= <-]. right. by eexists.
Qed.

(** C2.  Whatever a call of Generate ends with, the live vertex positions
    after it are the positions at entry. *)
Theorem positions_restored (ctx : Context) :
  live_positions (CreateHideOperator_execute ctx).2 = live_positions ctx.
Proof.
  destruct (not_a_mesh (active_object ctx)) eqn:Hmesh.
  - by rewrite CreateHideOperator_execute_not_mesh.
  - apply not_a_mesh_false in Hmesh as (o & Hobj & Hty).
    rewrite (CreateHideOperator_execute_mesh ctx o Hobj Hty).
    destruct (prepare o (scene ctx)) as [out|L]; [done|].
    unfold live_positions. simpl. by rewrite Hobj.
Qed.

(** C3.  The set of affected vertices is the union, over the faces whose
    slot index is a checked index, of the face's vertex indices: a vertex
    is in it exactly when some such face has it.  The checked indices are
    the positions of the selector entries that are checked and hold a
    material.  A run that reaches the shrink computation holds this set. *)
Theorem affected_vertices_exact (o : Object) (sc : Scene) :
  let items := vrm_hide_materials o in
  let faces := polygons (obj_data o) in
  let indices := checked_indices items in
  let affected := affected_vertices faces indices in
  (∀ i, i ∈ indices
        ↔ ∃ item, items !! i = Some item ∧ use_hide item = true
                  ∧ is_Some (material item))
  ∧ affected = union_of_checked_faces faces indices
  ∧ (∀ v, v ∈ affected
          ↔ ∃ face, face ∈ faces ∧ material_index face ∈ indices ∧ v ∈ verts face)
  ∧ (∀ L, prepare o sc = Go L → checked L = indices ∧ affected_verts L = affected).
Proof.
  intros items faces indices affected.
  split; [apply elem_of_checked_indices|].
  split; [apply affected_vertices_union|].
  split; [apply elem_of_affected_vertices|].
  intros L (_ & Hchecked & _ & _ & _ & _ & Haffected & _)%prepare_Go.
  split; [done|]. subst affected indices items faces. by rewrite Haffected, Hchecked.
Qed.


(** C5.  After a successful Generate the mesh has exactly two key blocks:
    "Basis" with the original positions, then the target with the shrunk
    positions and value 0.0.  The target's name is the key name with the
    white space at both ends removed (not the name as given), or "Hidden"
    when nothing is left of it. *)
Theorem generate_creates_two_keys (ctx ctx' : Context) (m : Message) :
  CreateHideOperator_execute ctx = (Return FINISHED INFO m, ctx') →
  ∃ o L,
    active_object ctx = Some o
    ∧ prepare o (scene ctx) = Go L
    ∧ live_shape_keys ctx'
      = Some [ {| sk_name := py "Basis";
                  sk_data := vertices (obj_data o);
                  sk_value := float_zero |};
               {| sk_name := key_name L;
                  sk_data := shrunk_cos L;
                  sk_value := float_zero |} ]
    ∧ key_name L
      = match strip (hide_shape_key_name (scene ctx)) with
        | [] => py "Hidden"
        | stripped => stripped
        end.
Proof.
  intros Hrun.
  destruct (not_a_mesh (active_object ctx)) eqn:Hmesh.
  { by rewrite CreateHideOperator_execute_not_mesh in Hrun. }
  apply not_a_mesh_false in Hmesh as (o & Hobj & Hty).
  rewrite (CreateHideOperator_execute_mesh ctx o Hobj Hty) in Hrun.
  destruct (prepare o (scene ctx)) as [out|L] eqn:Hprep.
  { injection Hrun as -> _. by destruct (prepare_Stop _ _ _ Hprep) as [[? ?]|[? ?]]. }
  injection Hrun as _ <-. exists o, L. split; [done|]. split; [done|].
  pose proof Hprep as (Hkeys & _ & _ & Hname & _)%prepare_Go.
  split; [|done].
  unfold live_shape_keys, generated. simpl. by rewrite Hkeys.
Qed.

(** ** The centre *)

Lemma gather_Ok orig_cos affected aff_cos :
  gather orig_cos affected = Ok aff_cos
  ↔ Forall2 (λ i co, orig_cos !! i = Some co) affected aff_cos.
Proof.
  revert aff_cos. induction affected as [|i affected IH]; intros aff_cos; simpl.
  - split; [intros [= <-]; constructor | by intros ->%Forall2_nil_inv_l].
  - unfold index. destruct (orig_cos !! i) as [co|] eqn:Hi; simpl.
    + destruct (gather orig_cos affected) as [cos|] eqn:Hg; simpl.
      * split.
        -- intros [= <-]. constructor; [done|]. by apply IH.
        -- intros (co' & cos' & Hco & Hcos & ->)%Forall2_cons_inv_l.
           apply IH in Hcos. congruence.
      * split; [done|].
        intros (co' & cos' & _ & Hcos & _)%Forall2_cons_inv_l.
        by apply IH in Hcos.
    + split; [done|].
      intros (co' & cos' & Hco & _)%Forall2_cons_inv_l. congruence.
Qed.



(** ** Selector positions and slot indices *)

Lemma omap_id_all_Some {A} (l : list (option A)) :
  Forall is_Some l → Some <$> omap id l = l.
Proof.
  induction 1 as [|x l [a ->] _ IH]; [done|]. simpl. f_equal. exact IH.
Qed.

Lemma prepare_Stop_NoMaterials o sc :
  prepare o sc = Stop NoMaterialsSelectedError
  ↔ shape_keys (obj_data o) = [] ∧ checked_indices (vrm_hide_materials o) = [].
Proof.
  unfold prepare. destruct (shape_keys (obj_data o)) as [|? ?].
  2:{ split; [done|by intros [? _]]. }
  destruct (checked_indices (vrm_hide_materials o)) as [|i l]; [done|].
  split; [|by intros [_ ?]]. case_decide; [done|].
  destruct (shrink_center _ _ _) as [c|e]; simpl; [|done].
  by destruct (shrink _ _ _ _).
Qed.

Lemma prepare_Stop_NoAffected o sc :
  prepare o sc = Stop NoAffectedVerticesError
  ↔ shape_keys (obj_data o) = []
    ∧ checked_indices (vrm_hide_materials o) ≠ []
    ∧ affected_vertices (polygons (obj_data o))
        (checked_indices (vrm_hide_materials o)) = ∅.
Proof.
  unfold prepare. destruct (shape_keys (obj_data o)) as [|? ?].
  2:{ split; [done|by intros [? _]]. }
  destruct (checked_indices (vrm_hide_materials o)) as [|i l].
  { split; [done|by intros (_ & ? & _)]. }
  case_decide as Hempty; [done|].
  split; [|by intros (_ & _ & ?)].
  destruct (shrink_center _ _ _) as [c|e]; simpl; [|done].
  by destruct (shrink _ _ _ _).
Qed.

(** C8.  Generate matches a face by looking its slot index up as a
    position in the selector of the object it runs on, and never reads the
    slot list: with another slot list in its place the read-only part and
    the outcome are the same.  When the slot list has no null slot and is
    the one Refresh saw, and the selector holds the materials Refresh left
    (the check marks being the user's), the checked indices of the run are
    exactly the slot indices whose material is checked, the affected
    vertices are those of the faces on such a slot, and the run stops for
    want of a selection or of vertices exactly when there is no such slot
    or no such face. *)
Theorem checked_indices_are_slot_indices (ctx : Context) (o_g : Object) :
  active_object ctx = Some o_g →
  let items := vrm_hide_materials o_g in
  let faces := polygons (obj_data o_g) in
  let slots := materials (obj_data o_g) in
  (∀ L, prepare o_g (scene ctx) = Go L →
        checked L = checked_indices items
        ∧ ∀ v, v ∈ affected_verts L
               ↔ ∃ face item,
                   face ∈ faces ∧ items !! material_index face = Some item
                   ∧ use_hide item = true ∧ is_Some (material item)
                   ∧ v ∈ verts face)
  ∧ (∀ slots',
       let o' := set_data (with_materials slots' (obj_data o_g)) o_g in
       prepare o' (scene ctx) = prepare o_g (scene ctx)
       ∧ (CreateHideOperator_execute
            {| active_object := Some o'; scene := scene ctx |}).1
         = (CreateHideOperator_execute ctx).1)
  ∧ (∀ o o_r,
       obj_type o = "MESH" →
       sync_material_list (Some o) = Some o_r →
       slots = materials (obj_data o_r) →
       Forall is_Some slots →
       material <$> items = material <$> vrm_hide_materials o_r →
       let slot_checked := λ i,
         ∃ mat item, slots !! i = Some (Some mat) ∧ items !! i = Some item
                     ∧ material item = Some mat ∧ use_hide item = true in
       length items = length slots
       ∧ (∀ L, prepare o_g (scene ctx) = Go L →
               (∀ i, i ∈ checked L ↔ slot_checked i)
               ∧ ∀ v, v ∈ affected_verts L
                      ↔ ∃ face, face ∈ faces ∧ slot_checked (material_index face)
                                ∧ v ∈ verts face)
       ∧ (shape_keys (obj_data o_g) = [] →
          prepare o_g (scene ctx) = Stop NoMaterialsSelectedError
          ↔ ∀ i, ¬ slot_checked i)
       ∧ (shape_keys (obj_data o_g) = [] →
          prepare o_g (scene ctx) = Stop NoAffectedVerticesError
          ↔ (∃ i, slot_checked i)
            ∧ ∀ face v, face ∈ faces → v ∈ verts face →
                        ¬ slot_checked (material_index face))).
Proof.
  intros Hobj items faces slots. subst items faces slots. split; [|split].
  - intros L (_ & Hchecked & _ & _ & _ & _ & Haff & _)%prepare_Go.
    split; [done|]. intros v.
    rewrite Haff, Hchecked, elem_of_affected_vertices. split.
    + intros (face & Hin & (item & ? & ? & ?)%elem_of_checked_indices & Hv).
      by exists face, item.
    + intros (face & item & Hin & Hi & Hu & Hm & Hv).
      exists face. split; [done|]. split; [|done].
      apply elem_of_checked_indices. by exists item.
  - intros slots' o'.
    assert (prepare o' (scene ctx) = prepare o_g (scene ctx)) as Hprep by done.
    split; [done|].
    destruct (not_a_mesh (Some o_g)) eqn:Hmesh.
    + rewrite !CreateHideOperator_execute_not_mesh; [done|by rewrite Hobj|done].
    + apply not_a_mesh_false in Hmesh as (? & [= <-] & Hty).
      rewrite (CreateHideOperator_execute_mesh ctx o_g Hobj Hty).
      rewrite (CreateHideOperator_execute_mesh
                 {| active_object := Some o'; scene := scene ctx |} o' eq_refl Hty).
      simpl. rewrite Hprep. by destruct (prepare o_g (scene ctx)).
  - intros o o_r Hty Hsync Hslots Hfull Hitems slot_checked.
    rewrite sync_material_list_mesh in Hsync by done. injection Hsync as <-.
    simpl in Hitems, Hslots.
    rewrite selector_of_slots_materials, <- Hslots, omap_id_all_Some in Hitems
      by done.
    assert (∀ i, i ∈ checked_indices (vrm_hide_materials o_g) ↔ slot_checked i)
      as Hchk.
    { intros i. rewrite elem_of_checked_indices. split.
      - intros (item & Hi & Hu & [mat Hm]). exists mat, item.
        split; [|done].
        by rewrite <- Hitems, list_lookup_fmap, Hi, <- Hm.
      - intros (mat & item & _ & Hi & Hm & Hu). exists item. by rewrite Hm. }
    assert (∀ v, v ∈ affected_vertices (polygons (obj_data o_g))
                       (checked_indices (vrm_hide_materials o_g))
                 ↔ ∃ face, face ∈ polygons (obj_data o_g)
                           ∧ slot_checked (material_index face)
                           ∧ v ∈ verts face) as Haffected.
    { intros v. rewrite elem_of_affected_vertices.
      apply exist_proper; intros face. by rewrite Hchk. }
    split; [by rewrite <- Hitems, length_fmap|]. split; [|split].
    + intros L (_ & Hchecked & _ & _ & _ & _ & Haff & _)%prepare_Go.
      split; [intros i; by rewrite Hchecked|].
      intros v. by rewrite Haff, Hchecked.
    + intros Hkeys. rewrite prepare_Stop_NoMaterials. split.
      * intros [_ Hnil] i Hi%Hchk. rewrite Hnil in Hi. by apply elem_of_nil in Hi.
      * intros Hnone. split; [done|].
        destruct (checked_indices (vrm_hide_materials o_g)) as [|i l] eqn:Hl;
          [done|].
        destruct (Hnone i). apply Hchk. left.
    + intros Hkeys. rewrite prepare_Stop_NoAffected. split.
      * intros (_ & Hne & Hempty). split.
        -- destruct (checked_indices (vrm_hide_materials o_g)) as [|i l] eqn:Hl;
             [done|].
           exists i. apply Hchk. left.
        -- intros face v Hface Hv Hslot.
           assert (v ∈ affected_vertices (polygons (obj_data o_g))
                         (checked_indices (vrm_hide_materials o_g))) as Hin
             by (apply Haffected; by exists face).
           rewrite Hempty in Hin. by apply elem_of_empty in Hin.
      * intros [[i Hi%Hchk] Hnone]. split; [done|]. split.
        -- intros Hnil. rewrite Hnil in Hi. by apply elem_of_nil in Hi.
        -- apply set_eq. intros v. rewrite Haffected, elem_of_empty.
           split; [|done]. intros (face & Hface & Hslot & Hv).
           by apply (Hnone face v).
Qed.

End Properties.

(** ** Single precision arithmetic *)

Module Binary32Facts.
Import Binary32.
Local Open Scope Z_scope.

Lemma shift23_eq m :
  shift23 m = (m~0~0~0~0~0~0~0~0~0~0~0~0~0~0~0~0~0~0~0~0~0~0~0)%positive.
Proof. unfold shift23. rewrite Pos.mul_comm. reflexivity. Qed.

Lemma digits2_shift23 m :
  Zpos (digits2_pos (shift23 m)) = Zpos (digits2_pos m) + 23.
Proof. rewrite shift23_eq. simpl digits2_pos. rewrite !Pos2Z.inj_succ. lia. Qed.

Lemma canonical_fexp m e :
  canonical_mantissa prec emax m e = true →
  fexp prec emax (Zpos (digits2_pos m) + e) = e.
Proof. unfold canonical_mantissa. apply Z.eqb_eq. Qed.

(** Shifting right by the 23 bits loses nothing. *)
Lemma shr_shift23 m e :
  shr (shr_record_of_loc (Zpos (shift23 m)) loc_Exact) (e + -23) 23
  = ({| shr_m := Zpos m; shr_r := false; shr_s := false |}, e).
Proof.
  rewrite shift23_eq. unfold shr.
  replace (e + -23 + 23) with e by lia. reflexivity.
Qed.

Lemma round_shift23 sx m e :
  bounded prec emax m e = true →
  binary_round_aux prec emax sx (Zpos (shift23 m)) (e + -23) loc_Exact
  = S754_finite sx m e.
Proof.
  intros [Hcan Hle]%andb_true_iff. apply canonical_fexp in Hcan.
  unfold binary_round_aux, shr_fexp.
  unfold Zdigits2 at 1. rewrite digits2_shift23.
  replace (Z.pos (digits2_pos m) + 23 + (e + -23))
    with (Z.pos (digits2_pos m) + e) by lia.
  rewrite Hcan. replace (e - (e + -23)) with 23 by lia.
  rewrite shr_shift23.
  cbn [loc_of_shr_record shr_m round_nearest_even Zdigits2].
  rewrite Hcan, Z.sub_diag. cbn [shr shr_record_of_loc shr_m].
  by rewrite Hle.
Qed.

(** [x * 1.0] is [x]. *)
Lemma mul_one x : valid x = true → mul x one = x.
Proof.
  destruct x as [s|s| |s m e]; simpl; intros Hv; try by rewrite ?xorb_false_r.
  unfold mul, one. cbn [SFmul]. rewrite xorb_false_r. by apply round_shift23.
Qed.

(** [x - 0.0] is [x]. *)
Lemma sub_zero x : sub x zero = x.
Proof. by destruct x as [[]|[]| |s m e]. Qed.

Lemma eqb_refl x : is_nan x = false → eqb x x = true.
Proof.
  destruct x as [s|[]| |[] m e]; try done; intros _; unfold eqb, SFeqb; simpl;
    rewrite Z.compare_refl, Pos.compare_cont_refl; done.
Qed.

(** [0.0 + x == x]; the sum of [0.0] and [-0.0] is [0.0]. *)
Lemma add_zero_l x : is_nan x = false → eqb (add zero x) x = true.
Proof. destruct x as [[]|[]| |s m e]; try done. intros _. by apply eqb_refl. Qed.

Lemma add_signed_zero_r c s :
  is_nan c = false → eqb (add c (S754_zero s)) c = true.
Proof.
  destruct c as [[]|[]| |sc m e]; destruct s; try done; intros _; by apply eqb_refl.
Qed.

(** A finite number times [0.0] is a zero; an infinity times [0.0] is not. *)
Lemma mul_zero_r d : is_finite d = true → ∃ s, mul d zero = S754_zero s.
Proof. destruct d as [s|s| |s m e]; try done; intros _; by eexists. Qed.

Lemma sub_finite_r x c : is_finite (sub x c) = true → is_nan c = false.
Proof. by destruct x as [[]|[]| |sx mx ex], c as [[]|[]| |sc mc ec]. Qed.

Lemma shrink_component_origin_one x :
  valid x = true → is_nan x = false →
  eqb (add zero (mul (sub x zero) one)) x = true.
Proof. intros Hv Hn. by rewrite sub_zero, mul_one, add_zero_l. Qed.

Lemma shrink_component_zero c x :
  is_finite (sub x c) = true →
  eqb (add c (mul (sub x c) zero)) c = true.
Proof.
  intros Hfin. destruct (mul_zero_r _ Hfin) as [s ->].
  apply add_signed_zero_r. by eapply sub_finite_r.
Qed.

Lemma shrink_co_origin_one co :
  vvalid co = true → vnan co = false →
  veqb (shrink_co Vector_zero one co) co = true.
Proof.
  destruct co as [x y z]. unfold vvalid, vnan.
  intros [[Hx Hy]%andb_true_iff Hz]%andb_true_iff
         [[Nx Ny]%orb_false_iff Nz]%orb_false_iff.
  change (eqb (add zero (mul (sub x zero) one)) x
          && eqb (add zero (mul (sub y zero) one)) y
          && eqb (add zero (mul (sub z zero) one)) z = true).
  by rewrite !shrink_component_origin_one.
Qed.

Lemma shrink_co_zero center co :
  vfinite (vsub co center) = true →
  veqb (shrink_co center zero co) center = true.
Proof.
  destruct co as [x y z], center as [cx cy cz].
  intros Hfin.
  change (is_finite (sub x cx) && is_finite (sub y cy) && is_finite (sub z cz)
          = true) in Hfin.
  apply andb_true_iff in Hfin as [[Hx Hy]%andb_true_iff Hz].
  change (eqb (add cx (mul (sub x cx) zero)) cx
          && eqb (add cy (mul (sub y cy) zero)) cy
          && eqb (add cz (mul (sub z cz) zero)) cz = true).
  by rewrite !shrink_component_zero.
Qed.

End Binary32Facts.

(** C7.  In single precision, with the factor 1.0 the shrunk list holds
    the original position itself at every unaffected index, and at an
    affected index the rounded [center + (orig - center) * 1.0]; this
    compares equal to the original when the centre is the zero vector
    (Origin mode) and the position has no NaN coordinate, and need not
    for another centre.  With the factor 0.0 an affected vertex whose
    offset from the centre is finite gets a position that compares equal
    to the centre. *)
Theorem shrink_at_one_and_zero
    (orig_cos : list Vector) (center : Vector) (affected : list nat)
    (shrunk_cos : list Vector) (i : nat) (co : Vector) :
  orig_cos !! i = Some co →
  (shrink orig_cos center Binary32.one affected = Ok shrunk_cos →
   (i ∉ affected → shrunk_cos !! i = Some co)
   ∧ (i ∈ affected →
      shrunk_cos !! i = Some (vadd center (vmul (vsub co center) Binary32.one))
      ∧ (center = Vector_zero →
         Binary32.vvalid co = true → Binary32.vnan co = false →
         ∃ s, shrunk_cos !! i = Some s ∧ Binary32.veqb s co = true)))
  ∧ (shrink orig_cos center Binary32.zero affected = Ok shrunk_cos →
     i ∈ affected →
     Binary32.vfinite (vsub co center) = true →
     ∃ s, shrunk_cos !! i = Some s ∧ Binary32.veqb s center = true).
Proof.
  intros Hco. split.
  - intros [_ Hall]%(shrink_Ok (VO:=Binary32.ops)).
    destruct (Hall i) as [Hin Hnotin]. split.
    + intros Hi. etrans; [by apply Hnotin|done].
    + intros Hi.
      assert (shrunk_cos !! i = Some (shrink_co center Binary32.one co)) as Hs.
      { etrans; [by apply Hin|]. by rewrite Hco. }
      split; [exact Hs|].
      intros -> Hvalid Hnan. eexists. split; [exact Hs|].
      by apply Binary32Facts.shrink_co_origin_one.
  - intros [_ Hall]%(shrink_Ok (VO:=Binary32.ops)) Hi Hfin.
    destruct (Hall i) as [Hin _]. eexists. split.
    + etrans; [by apply Hin|]. by rewrite Hco.
    + by apply Binary32Facts.shrink_co_zero.
Qed.

(** * Runs on the scenes *)

(** The locals of a run, and the state it leaves, by evaluation. *)
Ltac exists_locals o sc :=
  let r := eval vm_compute in (prepare o sc) in
  match r with Go ?L => exists L end.

Ltac exists_finished ctx :=
  let r := eval vm_compute in (CreateHideOperator_execute ctx) in
  match r with (Return FINISHED INFO ?m, ?ctx') => exists ctx', m end.


Lemma affected_vertices_exact_witness :
  ∃ L, prepare split_cube_object cube_scene = Go L
       ∧ checked L = checked_indices (vrm_hide_materials split_cube_object)
       ∧ affected_verts L
         = affected_vertices (polygons (obj_data split_cube_object))
             (checked_indices (vrm_hide_materials split_cube_object)).
Proof.
  exists_locals split_cube_object cube_scene. split; [reflexivity|].
  destruct (affected_vertices_exact split_cube_object cube_scene) as (_ & _ & _ & Hrun).
  apply Hrun. reflexivity.
Defined.


Lemma generate_creates_two_keys_witness :
  ∃ ctx' m,
    CreateHideOperator_execute cube_context = (Return FINISHED INFO m, ctx')
    ∧ ∃ o L,
        active_object cube_context = Some o
        ∧ prepare o (scene cube_context) = Go L
        ∧ live_shape_keys ctx'
          = Some [ {| sk_name := py "Basis";
                      sk_data := vertices (obj_data o);
                      sk_value := float_zero |};
                   {| sk_name := key_name L;
                      sk_data := shrunk_cos L;
                      sk_value := float_zero |} ]
        ∧ key_name L
          = match strip (hide_shape_key_name (scene cube_context)) with
            | [] => py "Hidden"
            | stripped => stripped
            end.
Proof.
  exists_finished cube_context. split; [reflexivity|].
  eapply generate_creates_two_keys. reflexivity.
Defined.


Lemma shrink_at_one_and_zero_witness :
  let co0 := Binary32.vec 3 (-4) 5 in
  let co1 := Binary32.vec 7 8 9 in
  let orig_cos : list Vector := [co0; co1] in
  (shrink orig_cos Vector_zero Binary32.one [0] = Ok orig_cos
   ∧ (∃ s, orig_cos !! 0 = Some s ∧ Binary32.veqb s co0 = true)
   ∧ orig_cos !! 1 = Some co1)
  ∧ (shrink orig_cos co1 Binary32.zero [0] = Ok [co1; co1]
     ∧ ∃ s, [co1; co1] !! 0 = Some s ∧ Binary32.veqb s co1 = true).
Proof.
  intros co0 co1 orig_cos.
  assert (shrink orig_cos Vector_zero Binary32.one [0] = Ok orig_cos) as Hone
    by reflexivity.
  assert (shrink orig_cos co1 Binary32.zero [0] = Ok [co1; co1]) as Hzero
    by reflexivity.
  split; [split; [exact Hone|split]|split; [exact Hzero|]].
  - destruct (shrink_at_one_and_zero orig_cos Vector_zero [0] orig_cos 0 co0 eq_refl)
      as [Hatone _].
    destruct (Hatone Hone) as [_ Hin].
    destruct Hin as [_ Horigin]; [left|].
    apply Horigin; reflexivity.
  - destruct (shrink_at_one_and_zero orig_cos Vector_zero [0] orig_cos 1 co1 eq_refl)
      as [Hatone _].
    destruct (Hatone Hone) as [Hout _].
    apply Hout. intros Hin. apply list_elem_of_In in Hin. simpl in Hin.
    destruct Hin as [Hin|[]]. discriminate Hin.
  - destruct (shrink_at_one_and_zero orig_cos co1 [0] [co1; co1] 0 co0 eq_refl)
      as [_ Hatzero].
    apply Hatzero; [exact Hzero|left|reflexivity].
Defined.

Lemma checked_indices_are_slot_indices_witness :
  let slot_checked := λ i,
    ∃ mat item,
      materials (obj_data two_slot_generate_object) !! i = Some (Some mat)
      ∧ two_slot_items !! i = Some item
      ∧ material item = Some mat ∧ use_hide item = true in
  ∃ L, prepare two_slot_generate_object cube_scene = Go L
       ∧ checked L = [0]
       ∧ ascending (affected_verts L) = [0; 2; 4; 6]
       ∧ (∀ i, i ∈ checked L ↔ slot_checked i)
       ∧ (∀ v, v ∈ affected_verts L
               ↔ ∃ face, face ∈ polygons (obj_data two_slot_generate_object)
                         ∧ slot_checked (material_index face) ∧ v ∈ verts face).
Proof.
  intros slot_checked.
  exists_locals two_slot_generate_object cube_scene.
  split; [reflexivity|]. split; [reflexivity|]. split; [reflexivity|].
  destruct (checked_indices_are_slot_indices
              two_slot_generate_context two_slot_generate_object eq_refl)
    as (_ & _ & Haligned).
  destruct (Haligned two_slot_object
              (mesh_object two_slot_mesh [checked_item "A"; checked_item "B"]))
    as (_ & Hrun & _).
  - reflexivity.
  - reflexivity.
  - reflexivity.
  - repeat (constructor; [by eexists|]). constructor.
  - reflexivity.
  - apply Hrun. reflexivity.
Defined.

Lemma refresh_rebuilds_selector_witness :
  let items := selector_of_slots (materials (obj_data gapped_object)) in
  sync_material_list (Some gapped_object) = Some (set_items items gapped_object)
  ∧ SyncMaterialsOperator_execute gapped_context
    = (Return FINISHED INFO (MaterialListUpdated (length items)),
       {| active_object := Some (set_items items gapped_object);
          scene := scene gapped_context |})
  ∧ material <$> items = Some <$> omap id (materials (obj_data gapped_object))
  ∧ Forall (λ item, use_hide item = true) items
  ∧ (omap id (materials (obj_data gapped_object)) = [] → items = []).
Proof. exact (refresh_rebuilds_selector gapped_context gapped_object eq_refl eq_refl). Defined.

Lemma refresh_idempotent_witness :
  let ctx1 := (SyncMaterialsOperator_execute gapped_context).2 in
  let ctx2 := (SyncMaterialsOperator_execute ctx1).2 in
  ∃ o1 o2,
    active_object ctx1 = Some o1 ∧ active_object ctx2 = Some o2
    ∧ material <$> vrm_hide_materials o2 = material <$> vrm_hide_materials o1
    ∧ Forall (λ item, use_hide item = true) (vrm_hide_materials o1)
    ∧ Forall (λ item, use_hide item = true) (vrm_hide_materials o2)
    ∧ ctx2 = ctx1.
Proof. exact (refresh_idempotent gapped_context gapped_object eq_refl eq_refl). Defined.

(** ** Where the code departs from the wording *)

(** The target key is named by the stripped name, not by the name as
    given: [" Foo "] gives a key called ["Foo"]. *)
Lemma key_name_not_kept_as_given :
  strip (hide_shape_key_name (scene padded_name_context)) ≠ []
  ∧ ∃ ctx' m basis hide,
      CreateHideOperator_execute padded_name_context = (Return FINISHED INFO m, ctx')
      ∧ live_shape_keys ctx' = Some [basis; hide]
      ∧ sk_name hide = py "Foo"
      ∧ sk_name hide ≠ hide_shape_key_name (scene padded_name_context).
Proof.
  split; [by vm_compute|].
  exists_finished padded_name_context.
  eexists _, _. split; [reflexivity|].
  split; [reflexivity|]. split; [reflexivity|]. by vm_compute.
Qed.

(** With the factor 1.0 and the centroid as centre, the vertex at
    [(1, 0, 0)] of the far quad is stored at [(0, 0, 0)]: the centroid is
    [2^58] along x, [1 - 2^58] rounds to [-2^58], and adding the centroid
    back gives [0]. *)
Lemma factor_one_moves_vertex :
  ∃ L, prepare far_quad_object factor_one_scene = Go L
       ∧ factor L = Binary32.one
       ∧ center L = {| Binary32.vx := Binary32.of_Z (2 ^ 58);
                       Binary32.vy := Binary32.ratio 1 2;
                       Binary32.vz := Binary32.zero |}
       ∧ 1 ∈ affected_verts L
       ∧ orig_cos L !! 1 = Some (Binary32.vec 1 0 0)
       ∧ shrunk_cos L !! 1 = Some (Binary32.vec 0 0 0)
       ∧ Binary32.veqb (Binary32.vec 0 0 0) (Binary32.vec 1 0 0) = false.
Proof.
  exists_locals far_quad_object factor_one_scene. split; [reflexivity|].
  split; [reflexivity|]. split; [reflexivity|].
  split; [by vm_compute|].
  split; [reflexivity|]. split; reflexivity.
Qed.

(** ** The scenarios of the specification *)

(** The cube, one material, checked: the centroid is the origin, the
    target key holds every vertex shrunk to a hundredth, the live
    positions are the original ones, and the two keys are "Basis" and
    "Hidden". *)
Example cube_end_to_end :
  ∃ ctx' m L,
    CreateHideOperator_execute cube_context = (Return FINISHED INFO m, ctx')
    ∧ prepare cube_object cube_scene = Go L
    ∧ center L = Binary32.vec 0 0 0
    ∧ ascending (affected_verts L) = [0; 1; 2; 3; 4; 5; 6; 7]
    ∧ live_positions ctx' = Some cube_vertices
    ∧ live_shape_keys ctx'
      = Some [ {| sk_name := py "Basis"; sk_data := cube_vertices;
                  sk_value := Binary32.zero |};
               {| sk_name := py "Hidden"; sk_data := shrunk_cos L;
                  sk_value := Binary32.zero |} ]
    ∧ shrunk_cos L
      = (λ co, Binary32.scale co (Binary32.ratio 1 100)) <$> cube_vertices.
Proof.
  exists_finished cube_context. exists_locals cube_object cube_scene.
  repeat split; reflexivity.
Qed.

(** The cube split between two materials, the first one checked: the
    affected vertices are those of the one face on it, and the others stay
    where they are in the target key. *)
Example split_cube_partial :
  ∃ L, prepare split_cube_object cube_scene = Go L
       ∧ ascending (affected_verts L) = [0; 2; 4; 6]
       ∧ (λ i, shrunk_cos L !! i) <$> [1; 3; 5; 7]
         = (λ i, cube_vertices !! i) <$> [1; 3; 5; 7].
Proof.
  exists_locals split_cube_object cube_scene. repeat split; reflexivity.
Qed.

(** On a quad of ordinary size the factor 1.0 moves a vertex by one unit
    in the last place: x = 0.1 is stored as the float just below it. *)
Example factor_one_rounds_small_quad :
  ∃ L, prepare small_quad_object factor_one_scene = Go L
       ∧ Binary32.vx <$> orig_cos L !! 0 = Some (S754_finite false 13421773 (-27))
       ∧ Binary32.vx <$> shrunk_cos L !! 0 = Some (S754_finite false 13421772 (-27)).
Proof.
  exists_locals small_quad_object factor_one_scene. repeat split; reflexivity.
Qed.

(** With the factor 0.0 a vertex whose offset from the centroid overflows
    is not collapsed to the centre: the centroid of the huge quad is
    [-M/4] along x, [M - (-M/4)] is infinite, and infinity times 0.0 is
    not a number. *)
Example factor_zero_overflow_gives_nan :
  ∃ L, prepare huge_quad_object factor_zero_scene = Go L
       ∧ Binary32.vfinite (center L) = true
       ∧ Binary32.vx <$> orig_cos L !! 0 = Some (Binary32.of_Z max_float)
       ∧ (λ co, Binary32.vx (vsub co (center L))) <$> orig_cos L !! 0
         = Some (S754_infinity false)
       ∧ Binary32.vx <$> shrunk_cos L !! 0 = Some S754_nan.
Proof.
  exists_locals huge_quad_object factor_zero_scene. repeat split; reflexivity.
Qed.

(** With an empty slot the selector is shorter than the slot list: after
    Refresh, "B" of slot 2 stands at position 1, so the faces of slot 2
    are not matched and only the face of slot 0 is affected. *)
Example compaction_misaligns :
  ∃ o, sync_material_list (Some gapped_object) = Some o
       ∧ vrm_hide_materials o = [checked_item "A"; checked_item "B"]
       ∧ materials (obj_data o) !! 2 = Some (Some "B")
       ∧ checked_indices (vrm_hide_materials o) = [0; 1]
       ∧ ascending (affected_vertices (polygons (obj_data o))
                      (checked_indices (vrm_hide_materials o)))
         = [0; 2; 4; 6].
Proof.
  eexists. split; [reflexivity|]. repeat split; reflexivity.
Qed.
(** * More of the add-on *)

Section MoreProperties.
Context `{VO : VectorOps} `{SO : SetOrder}.

(** ** What the operators leave alone *)

(** X1.  Refresh touches nothing but the selector: the scene, the type of
    the object and its mesh data are after the call what they were before,
    whatever the outcome; it fails exactly when there is no mesh object,
    and then the whole state is unchanged. *)
Theorem refresh_frame (ctx : Context) :
  let out := (SyncMaterialsOperator_execute ctx).1 in
  let ctx' := (SyncMaterialsOperator_execute ctx).2 in
  scene ctx' = scene ctx
  ∧ obj_type <$> active_object ctx' = obj_type <$> active_object ctx
  ∧ obj_data <$> active_object ctx' = obj_data <$> active_object ctx
  ∧ (out = NotAMeshError ↔ not_a_mesh (active_object ctx) = true)
  ∧ (out = NotAMeshError → ctx' = ctx)
  ∧ (out ≠ NotAMeshError → ∃ n, out = Return FINISHED INFO (MaterialListUpdated n)).
Proof.
  intros out ctx'. subst out ctx'.
  destruct (not_a_mesh (active_object ctx)) eqn:Hmesh.
  - unfold SyncMaterialsOperator_execute. rewrite Hmesh. simpl.
    repeat split; try done.
  - pose proof Hmesh as (o & Hobj & Hty)%not_a_mesh_false.
    rewrite (SyncMaterialsOperator_execute_mesh ctx o Hobj Hty). simpl.
    rewrite Hobj. repeat split; try done. intros _. by eexists.
Qed.

(** X2.  Generate touches nothing but the shape keys: the scene, the
    selector, the type of the object, its vertices, material slots and
    faces are after the call what they were before, whatever the outcome,
    and the key blocks that were there are still there, in front. *)
Theorem generate_frame (ctx : Context) :
  let ctx' := (CreateHideOperator_execute ctx).2 in
  scene ctx' = scene ctx
  ∧ obj_type <$> active_object ctx' = obj_type <$> active_object ctx
  ∧ vrm_hide_materials <$> active_object ctx'
    = vrm_hide_materials <$> active_object ctx
  ∧ (λ o, vertices (obj_data o)) <$> active_object ctx'
    = (λ o, vertices (obj_data o)) <$> active_object ctx
  ∧ (λ o, materials (obj_data o)) <$> active_object ctx'
    = (λ o, materials (obj_data o)) <$> active_object ctx
  ∧ (λ o, polygons (obj_data o)) <$> active_object ctx'
    = (λ o, polygons (obj_data o)) <$> active_object ctx
  ∧ ∃ added,
      (λ o, shape_keys (obj_data o)) <$> active_object ctx'
      = (λ o, shape_keys (obj_data o) ++ added) <$> active_object ctx.
Proof.
  intros ctx'. subst ctx'.
  destruct (not_a_mesh (active_object ctx)) eqn:Hmesh.
  - rewrite CreateHideOperator_execute_not_mesh by done. simpl.
    repeat split; try done. exists []. destruct (active_object ctx); simpl; [|done].
    by rewrite app_nil_r.
  - apply not_a_mesh_false in Hmesh as (o & Hobj & Hty).
    rewrite (CreateHideOperator_execute_mesh ctx o Hobj Hty).
    destruct (prepare o (scene ctx)) as [out|L]; simpl.
    + repeat split; try done. exists []. rewrite Hobj. simpl. by rewrite app_nil_r.
    + rewrite Hobj. simpl. repeat split; try done. by eexists.
Qed.

(** X3.  Generate is not repeatable: called again on the state a
    successful call left, it fails with [ExistingShapeKeysError] and
    changes nothing. *)
Theorem generate_twice (ctx ctx' : Context) (m : Message) :
  CreateHideOperator_execute ctx = (Return FINISHED INFO m, ctx') →
  CreateHideOperator_execute ctx' = (ExistingShapeKeysError, ctx').
Proof.
  intros Hrun.
  destruct (not_a_mesh (active_object ctx)) eqn:Hmesh.
  { by rewrite CreateHideOperator_execute_not_mesh in Hrun. }
  apply not_a_mesh_false in Hmesh as (o & Hobj & Hty).
  rewrite (CreateHideOperator_execute_mesh ctx o Hobj Hty) in Hrun.
  destruct (prepare o (scene ctx)) as [out|L] eqn:Hprep.
  { injection Hrun as -> _. by destruct (prepare_Stop _ _ _ Hprep) as [[? ?]|[? ?]]. }
  injection Hrun as _ <-.
  rewrite (CreateHideOperator_execute_mesh (generated ctx o L) _ eq_refl Hty).
  unfold prepare. simpl.
  by destruct (shape_keys (obj_data o)).
Qed.

(** ** Exceptions *)

Lemma gather_Err orig_cos affected e :
  gather orig_cos affected = Err e →
  e = IndexError ∧ ∃ i, i ∈ affected ∧ length orig_cos ≤ i.
Proof.
  induction affected as [|i affected IH]; simpl; [done|].
  unfold index. destruct (orig_cos !! i) as [co|] eqn:Hi; simpl.
  - destruct (gather orig_cos affected) as [cos|e'] eqn:Hg; simpl; [done|].
    intros [= <-]. destruct (IH eq_refl) as (-> & j & Hj & Hlen).
    split; [done|]. exists j. split; [by right|done].
  - intros [= <-]. split; [done|]. exists i. split; [left|].
    by apply lookup_ge_None.
Qed.

Lemma shrink_loop_Err orig_cos center factor affected acc e :
  for_each (shrink_step orig_cos center factor) acc affected = Err e →
  e = IndexError ∧ ∃ i, i ∈ affected ∧ length orig_cos ≤ i.
Proof.
  revert acc. induction affected as [|i affected IH]; intros acc; simpl; [done|].
  unfold shrink_step at 1, index. destruct (orig_cos !! i) as [co|] eqn:Hi; simpl.
  - intros (-> & j & Hj & Hlen)%IH. split; [done|]. exists j. split; [by right|done].
  - intros [= <-]. split; [done|]. exists i. split; [left|].
    by apply lookup_ge_None.
Qed.

Lemma set_iter_nil (s : gset nat) : set_iter s = [] → s = ∅.
Proof.
  intros Hnil. apply leibniz_equiv, elements_empty_inv.
  apply Permutation_nil_r. by rewrite <- set_iter_perm, Hnil.
Qed.

(** Every way the read-only part stops. *)
Lemma prepare_Stop_cases o sc out :
  prepare o sc = Stop out →
  let items := vrm_hide_materials o in
  let me := obj_data o in
  (shape_keys me ≠ [] ∧ out = ExistingShapeKeysError)
  ∨ (shape_keys me = [] ∧ checked_indices items = []
     ∧ out = NoMaterialsSelectedError)
  ∨ (shape_keys me = [] ∧ checked_indices items ≠ []
     ∧ affected_vertices (polygons me) (checked_indices items) = ∅
     ∧ out = NoAffectedVerticesError)
  ∨ (shape_keys me = [] ∧ out = Raised IndexError
     ∧ ∃ i, i ∈ affected_vertices (polygons me) (checked_indices items)
            ∧ length (vertices me) ≤ i).
Proof.
  intros Hprep items me. revert Hprep. unfold prepare. fold me. fold items.
  destruct (shape_keys me) as [|? ?].
  2:{ intros [= <-]. by left. }
  destruct (checked_indices items) as [|i l] eqn:Hchecked.
  { intros [= <-]. right. by left. }
  case_decide as Hne.
  { intros [= <-]. right. right. left. by rewrite Hne. }
  right. right. right. split; [done|].
  set (aff := affected_vertices (polygons me) (i :: l)) in *.
  destruct (shrink_center _ _ _) as [c|e] eqn:Hcenter; simpl in Hprep.
  - destruct (shrink _ _ _ _) as [cos|e] eqn:Hshrink; simpl in Hprep; [done|].
    injection Hprep as <-.
    apply shrink_loop_Err in Hshrink as (-> & j & Hj%elem_of_set_iter & Hlen).
    split; [done|]. by exists j.
  - injection Hprep as <-. unfold shrink_center in Hcenter.
    destruct (hide_shrink_center sc); [|done].
    destruct (gather _ _) as [aff_cos|e'] eqn:Hg; simpl in Hcenter.
    + exfalso. unfold mean in Hcenter.
      destruct aff_cos as [|co aff_cos]; [|done].
      apply gather_Ok, Forall2_nil_inv_r in Hg. by apply set_iter_nil in Hg.
    + injection Hcenter as <-.
      apply gather_Err in Hg as (-> & j & Hj%elem_of_set_iter & Hlen).
      split; [done|]. by exists j.
Qed.

(** X5.  On a mesh whose faces name vertices it has, Generate never
    raises, and it succeeds exactly when the active object is a mesh
    without shape keys and some face with at least one vertex has, at the
    position of its slot index, a selector entry that is checked and
    holds a material. *)
Theorem generate_succeeds_iff (ctx : Context) :
  (∀ o, active_object ctx = Some o → mesh_wf (obj_data o)) →
  (∀ e, (CreateHideOperator_execute ctx).1 ≠ Raised e)
  ∧ ((∃ m, (CreateHideOperator_execute ctx).1 = Return FINISHED INFO m)
     ↔ ∃ o, active_object ctx = Some o ∧ obj_type o = "MESH"
            ∧ shape_keys (obj_data o) = []
            ∧ ∃ face item,
                face ∈ polygons (obj_data o)
                ∧ vrm_hide_materials o !! material_index face = Some item
                ∧ use_hide item = true ∧ is_Some (material item)
                ∧ verts face ≠ []).
Proof.
  intros Hwf. split.
  - intros e.
    destruct (not_a_mesh (active_object ctx)) eqn:Hmesh.
    { by rewrite CreateHideOperator_execute_not_mesh. }
    apply not_a_mesh_false in Hmesh as (o & Hobj & Hty).
    rewrite (CreateHideOperator_execute_mesh ctx o Hobj Hty).
    destruct (prepare o (scene ctx)) as [out|L] eqn:Hprep; [|done].
    simpl. intros ->.
    apply prepare_Stop_cases in Hprep
      as [[_ ?]|[(_ & _ & ?)|[(_ & _ & _ & ?)|(_ & _ & v & Hv & Hlen)]]];
      try done.
    apply elem_of_affected_vertices in Hv as (face & Hface & _ & Hin).
    specialize (Hwf o Hobj). unfold mesh_wf in Hwf.
    rewrite Forall_forall in Hwf. specialize (Hwf face Hface).
    rewrite Forall_forall in Hwf. specialize (Hwf v Hin). lia.
  - destruct (not_a_mesh (active_object ctx)) eqn:Hmesh.
    { rewrite CreateHideOperator_execute_not_mesh by done. simpl. split.
      - by intros [m ?].
      - intros (o & Hobj & Hty & _). rewrite Hobj in Hmesh. simpl in Hmesh.
        apply negb_true_iff, String.eqb_neq in Hmesh. done. }
    apply not_a_mesh_false in Hmesh as (o & Hobj & Hty).
    rewrite (CreateHideOperator_execute_mesh ctx o Hobj Hty).
    destruct (prepare o (scene ctx)) as [out|L] eqn:Hprep; simpl; split.
    + intros [m ->]. by destruct (prepare_Stop _ _ _ Hprep) as [[? ?]|[? ?]].
    + intros (o' & Hobj' & _ & Hkeys & face & item & Hface & Hitem & Hu & Hm & Hverts).
      assert (o' = o) as -> by congruence. exfalso.
      assert (material_index face ∈ checked_indices (vrm_hide_materials o)) as Hchk.
      { apply elem_of_checked_indices. by exists item. }
      destruct (verts face) as [|v vs] eqn:Hvs; [done|].
      assert (v ∈ affected_vertices (polygons (obj_data o))
                    (checked_indices (vrm_hide_materials o))) as Hv.
      { apply elem_of_affected_vertices. exists face. rewrite Hvs.
        split; [done|]. split; [done|left]. }
      apply prepare_Stop_cases in Hprep
        as [[? _]|[(_ & Hnil & _)|[(_ & _ & Hempty & _)|(_ & _ & w & Hw & Hlen)]]].
      * done.
      * rewrite Hnil in Hchk. by apply elem_of_nil in Hchk.
      * rewrite Hempty in Hv. by apply elem_of_empty in Hv.
      * apply elem_of_affected_vertices in Hw as (face' & Hface' & _ & Hin).
        specialize (Hwf o Hobj). unfold mesh_wf in Hwf.
        rewrite Forall_forall in Hwf. specialize (Hwf face' Hface').
        rewrite Forall_forall in Hwf. specialize (Hwf w Hin). lia.
    + intros _. exists o. split; [done|]. split; [done|].
      apply prepare_Go in Hprep
        as (Hkeys & Hchecked & _ & _ & _ & _ & Haff & Hne & _).
      split; [done|].
      apply set_choose_L in Hne as [v Hv].
      rewrite Haff, Hchecked in Hv.
      apply elem_of_affected_vertices in Hv as (face & Hface & Hchk & Hin).
      apply elem_of_checked_indices in Hchk as (item & Hitem & Hu & Hm).
      exists face, item. repeat split; try done.
      intros Hnil. rewrite Hnil in Hin. by apply elem_of_nil in Hin.
    + by eexists.
Qed.

(** ** The selector after Refresh *)

Lemma checked_from_all_checked k (mats : list Material) :
  checked_from k ((λ m, {| material := Some m; use_hide := true |}) <$> mats)
  = seq k (length mats).
Proof.
  revert k. induction mats as [|m mats IH]; intros k; simpl; [done|].
  by rewrite IH.
Qed.

Lemma omap_id_nil {A} (l : list (option A)) :
  omap id l = [] ↔ Forall (λ x, x = None) l.
Proof.
  induction l as [|[a|] l IH]; simpl.
  - split; [constructor|done].
  - split; [done|]. by inversion 1.
  - rewrite IH. split; [by constructor|by inversion 1].
Qed.

Lemma length_omap_id_le {A} (l : list (option A)) :
  length (omap id l) ≤ length l.
Proof.
  induction l as [|[a|] l IH]; [done| |].
  - change (S (length (omap id l)) ≤ S (length l)). lia.
  - change (length (omap id l) ≤ S (length l)). lia.
Qed.

Lemma length_omap_id_eq {A} (l : list (option A)) :
  length (omap id l) = length l ↔ Forall is_Some l.
Proof.
  induction l as [|[a|] l IH].
  - split; [constructor|done].
  - change (S (length (omap id l)) = S (length l) ↔ Forall is_Some (Some a :: l)).
    rewrite Forall_cons. split.
    + intros [= Hlen]. split; [by eexists|by apply IH].
    + intros [_ Hall]. f_equal. by apply IH.
  - change (length (omap id l) = S (length l) ↔ Forall is_Some (None :: l)).
    pose proof (length_omap_id_le l). split; [lia|].
    inversion 1 as [|? ? [? ?] ?]. done.
Qed.

(** X6.  Right after Refresh every entry counts as checked: the checked
    indices are [0 .. k-1] for the [k] non-null slots.  So on a mesh without
    shape keys, Generate right after Refresh reports
    [NoMaterialsSelectedError] exactly when every slot is empty. *)
Theorem generate_after_refresh (ctx : Context) (o : Object) :
  active_object ctx = Some o →
  obj_type o = "MESH" →
  let slots := materials (obj_data o) in
  let ctx1 := (SyncMaterialsOperator_execute ctx).2 in
  ∃ o1,
    active_object ctx1 = Some o1
    ∧ checked_indices (vrm_hide_materials o1) = seq 0 (length (omap id slots))
    ∧ (shape_keys (obj_data o) = [] →
       (CreateHideOperator_execute ctx1).1 = NoMaterialsSelectedError
       ↔ Forall (λ slot, slot = None) slots).
Proof.
  intros Hobj Hty slots ctx1. subst ctx1.
  rewrite (SyncMaterialsOperator_execute_mesh ctx o Hobj Hty). simpl.
  set (o1 := set_items (selector_of_slots slots) o).
  assert (checked_indices (vrm_hide_materials o1) = seq 0 (length (omap id slots)))
    as Hchecked by apply checked_from_all_checked.
  exists o1. split; [done|]. split; [done|]. intros Hkeys.
  rewrite (CreateHideOperator_execute_mesh
             {| active_object := Some o1; scene := scene ctx |} o1 eq_refl Hty).
  rewrite <- omap_id_nil.
  destruct (prepare o1 _) as [out|L] eqn:Hprep; simpl.
  - apply prepare_Stop_cases in Hprep
      as [[? _]|[(_ & Hnil & ->)|[(_ & Hne & _ & ->)|(_ & -> & v & Hv & _)]]].
    + done.
    + rewrite Hchecked in Hnil. split; [intros _|done].
      destruct (omap id slots); [done|discriminate Hnil].
    + split; [done|]. intros Hnone. rewrite Hchecked, Hnone in Hne. done.
    + split; [done|]. intros Hnone.
      apply elem_of_affected_vertices in Hv as (face & _ & Hchk & _).
      rewrite Hchecked, Hnone in Hchk. by apply elem_of_nil in Hchk.
  - split; [done|]. intros Hnone.
    apply prepare_Go in Hprep as (_ & Hc & Hne & _).
    rewrite Hc, Hchecked, Hnone in Hne. done.
Qed.

Lemma omap_id_app {A} (l k : list (option A)) :
  omap id (l ++ k) = omap id l ++ omap id k.
Proof.
  induction l as [|[a|] l IH]; [done| |].
  - change (a :: omap id (l ++ k) = a :: (omap id l ++ omap id k)). by rewrite IH.
  - exact IH.
Qed.

(** X7.  Refresh packs the materials: the material of slot [i] gets the
    position that counts the non-null slots before [i].  That position is
    never past [i], and it is [i] exactly when no slot before [i] is
    empty. *)
Theorem refresh_position (o o' : Object) (i : nat) (mat : Material) :
  obj_type o = "MESH" →
  sync_material_list (Some o) = Some o' →
  materials (obj_data o) !! i = Some (Some mat) →
  let p := length (omap id (take i (materials (obj_data o)))) in
  vrm_hide_materials o' !! p = Some {| material := Some mat; use_hide := true |}
  ∧ p ≤ i
  ∧ (p = i ↔ Forall is_Some (take i (materials (obj_data o)))).
Proof.
  intros Hty Hsync Hslot p.
  rewrite sync_material_list_mesh in Hsync by done. injection Hsync as <-.
  simpl. set (slots := materials (obj_data o)) in *.
  assert (length (take i slots) = i) as Hlen.
  { rewrite length_take. apply lookup_lt_Some in Hslot. lia. }
  split; [|split].
  - unfold selector_of_slots.
    rewrite <- (take_drop_middle slots i (Some mat)) at 1 by done.
    rewrite omap_id_app, fmap_app, lookup_app_r by (by rewrite length_fmap).
    rewrite length_fmap. subst p. by rewrite Nat.sub_diag.
  - subst p. rewrite <- Hlen at 2. apply length_omap_id_le.
  - subst p. rewrite <- length_omap_id_eq. by rewrite Hlen.
Qed.

(** X8.  The selector Refresh installs is never longer than the slot
    list, and it is as long exactly when no slot is empty. *)
Theorem refresh_length (o o' : Object) :
  obj_type o = "MESH" →
  sync_material_list (Some o) = Some o' →
  length (vrm_hide_materials o') ≤ length (materials (obj_data o))
  ∧ (length (vrm_hide_materials o') = length (materials (obj_data o))
     ↔ Forall is_Some (materials (obj_data o))).
Proof.
  intros Hty Hsync.
  rewrite sync_material_list_mesh in Hsync by done. injection Hsync as <-.
  simpl. unfold selector_of_slots. rewrite length_fmap.
  split; [apply length_omap_id_le|apply length_omap_id_eq].
Qed.

(** ** How the affected set is put together *)

(** X9.  The affected set grows with the selection and with the mesh: for
    two lists of checked indices it is the union of the two sets, and so
    for two lists of faces; more checked indices never give fewer
    affected vertices; and the order of the faces does not matter. *)
Theorem affected_vertices_compose (faces faces' : list Face) (c c' : list nat) :
  affected_vertices faces (c ++ c')
  = affected_vertices faces c ∪ affected_vertices faces c'
  ∧ affected_vertices (faces ++ faces') c
    = affected_vertices faces c ∪ affected_vertices faces' c
  ∧ (c ⊆ c' → affected_vertices faces c ⊆ affected_vertices faces c')
  ∧ (faces ≡ₚ faces' → affected_vertices faces c = affected_vertices faces' c).
Proof.
  split; [|split; [|split]].
  - apply set_eq. intros v.
    rewrite elem_of_union, !elem_of_affected_vertices. split.
    + intros (face & Hin & [Hm|Hm]%elem_of_app & Hv); [left|right]; by exists face.
    + intros [(face & Hin & Hm & Hv)|(face & Hin & Hm & Hv)];
        exists face; rewrite elem_of_app; tauto.
  - apply set_eq. intros v.
    rewrite elem_of_union, !elem_of_affected_vertices. split.
    + intros (face & [Hin|Hin]%elem_of_app & Hm & Hv); [left|right]; by exists face.
    + intros [(face & Hin & Hm & Hv)|(face & Hin & Hm & Hv)];
        exists face; rewrite elem_of_app; tauto.
  - intros Hsub v. rewrite !elem_of_affected_vertices.
    intros (face & Hin & Hm & Hv). exists face. split; [done|]. split; [|done].
    by apply Hsub.
  - intros Hperm. apply set_eq. intros v. rewrite !elem_of_affected_vertices.
    split; intros (face & Hin & Hm & Hv); exists face;
      (split; [|done]); [by rewrite <- Hperm|by rewrite Hperm].
Qed.

End MoreProperties.

(** ** The order in which the affected set is iterated *)

Section IterationOrder.
Context `{VO : VectorOps}.

Lemma shrink_loop_in_range orig_cos center factor affected acc out :
  for_each (shrink_step orig_cos center factor) acc affected = Ok out →
  ∀ i, i ∈ affected → i < length orig_cos.
Proof.
  revert acc. induction affected as [|j affected IH]; intros acc; simpl.
  - by intros _ i ?%elem_of_nil.
  - unfold shrink_step at 1, index. destruct (orig_cos !! j) as [co|] eqn:Hj; [|done].
    simpl. intros Hrest i [->|Hi]%elem_of_cons.
    + by eapply lookup_lt_Some.
    + by eapply IH.
Qed.

(** The shrink loop gives the same list for every order of the indices. *)
Lemma shrink_Permutation orig_cos center factor l1 l2 :
  l1 ≡ₚ l2 →
  shrink orig_cos center factor l1 = shrink orig_cos center factor l2.
Proof.
  intros Hperm.
  destruct (shrink orig_cos center factor l1) as [a|e1] eqn:H1;
    destruct (shrink orig_cos center factor l2) as [b|e2] eqn:H2.
  - f_equal. apply list_eq. intros i.
    apply shrink_Ok in H1 as [_ Ha]. apply shrink_Ok in H2 as [_ Hb].
    destruct (Ha i) as [Ha1 Ha2], (Hb i) as [Hb1 Hb2].
    destruct (decide (i ∈ l1)) as [Hi|Hi].
    + rewrite Ha1 by done. rewrite Hb1; [done|by rewrite <- Hperm].
    + rewrite Ha2 by done. rewrite Hb2; [done|by rewrite <- Hperm].
  - exfalso. apply shrink_loop_Err in H2 as (_ & i & Hi & Hlen).
    rewrite <- Hperm in Hi.
    pose proof (shrink_loop_in_range _ _ _ _ _ _ H1 i Hi). lia.
  - exfalso. apply shrink_loop_Err in H1 as (_ & i & Hi & Hlen).
    rewrite Hperm in Hi.
    pose proof (shrink_loop_in_range _ _ _ _ _ _ H2 i Hi). lia.
  - apply shrink_loop_Err in H1 as [-> _]. by apply shrink_loop_Err in H2 as [-> _].
Qed.

(** X10.  In Origin mode the outcome of Generate and the state it leaves
    do not depend on the order in which the set of affected vertices is
    iterated. *)
Theorem generate_order_independent (SO1 SO2 : SetOrder) (ctx : Context) :
  hide_shrink_center (scene ctx) = ORIGIN →
  CreateHideOperator_execute (SO := SO1) ctx
  = CreateHideOperator_execute (SO := SO2) ctx.
Proof.
  intros Hmode.
  assert (∀ o, prepare (SO := SO1) o (scene ctx) = prepare (SO := SO2) o (scene ctx))
    as Hprep.
  { intros o. unfold prepare. rewrite Hmode. simpl.
    destruct (shape_keys (obj_data o)); [|done].
    destruct (checked_indices (vrm_hide_materials o)) as [|i l]; [done|].
    case_decide; [done|].
    set (aff := affected_vertices (polygons (obj_data o)) (i :: l)).
    rewrite (shrink_Permutation _ _ _
               (set_iter (SetOrder := SO1) aff) (set_iter (SetOrder := SO2) aff));
      [done|].
    by rewrite !set_iter_perm. }
  unfold CreateHideOperator_execute.
  destruct (not_a_mesh (active_object ctx)); [done|].
  destruct (active_object ctx) as [o|]; [|done].
  by rewrite Hprep.
Qed.

End IterationOrder.

Lemma generate_order_independent_witness :
  hide_shrink_center (scene origin_context) = ORIGIN
  ∧ CreateHideOperator_execute (SO := ascending_order) origin_context
    = CreateHideOperator_execute (SO := descending_order) origin_context.
Proof.
  split; [reflexivity|].
  apply (generate_order_independent ascending_order descending_order origin_context).
  reflexivity.
Defined.

(** ** The name of the target key *)

Lemma lstrip_head s c s' : lstrip s = c :: s' → is_space c = false.
Proof.
  induction s as [|a s IH]; simpl; [done|].
  destruct (is_space a) eqn:Ha; [exact IH|]. by intros [= <- <-].
Qed.

Lemma lstrip_id s : (∀ c, head s = Some c → is_space c = false) → lstrip s = s.
Proof.
  destruct s as [|a s]; [done|]. simpl. intros Hhead. by rewrite (Hhead a eq_refl).
Qed.

Lemma lstrip_split s :
  ∃ p, s = p ++ lstrip s ∧ Forall (λ c, is_space c = true) p.
Proof.
  induction s as [|a s (p & Hs & Hp)]; simpl.
  - by exists [].
  - destruct (is_space a) eqn:Ha.
    + exists (a :: p). split; [by rewrite Hs at 1|by constructor].
    + by exists [].
Qed.

Lemma lstrip_nil s : lstrip s = [] ↔ Forall (λ c, is_space c = true) s.
Proof.
  induction s as [|a s IH]; simpl.
  - split; [constructor|done].
  - destruct (is_space a) eqn:Ha.
    + rewrite IH. split; [by constructor|by inversion 1].
    + split; [done|]. inversion 1; congruence.
Qed.

Lemma lstrip_snoc u c :
  is_space c = false → ∃ v, lstrip (u ++ [c]) = v ++ [c].
Proof.
  intros Hc. induction u as [|a u IH]; simpl.
  - rewrite Hc. by exists [].
  - destruct (is_space a); [exact IH|]. by exists (a :: u).
Qed.

Lemma rstrip_last s c : last (rstrip s) = Some c → is_space c = false.
Proof.
  unfold rstrip. rewrite last_reverse.
  destruct (lstrip (reverse s)) as [|a t] eqn:Hl; [done|].
  intros [= <-]. by eapply lstrip_head.
Qed.

Lemma rstrip_id s : (∀ c, last s = Some c → is_space c = false) → rstrip s = s.
Proof.
  intros Hlast. unfold rstrip. rewrite lstrip_id; [apply reverse_involutive|].
  intros c Hc. apply Hlast. by rewrite <- head_reverse.
Qed.

Lemma rstrip_split s :
  ∃ q, s = rstrip s ++ q ∧ Forall (λ c, is_space c = true) q.
Proof.
  destruct (lstrip_split (reverse s)) as (p & Hs & Hp).
  exists (reverse p). split; [|by apply Forall_reverse].
  unfold rstrip. rewrite <- reverse_app, <- Hs. by rewrite reverse_involutive.
Qed.

Lemma rstrip_cons c s :
  is_space c = false → ∃ v, rstrip (c :: s) = c :: v.
Proof.
  intros Hc. unfold rstrip. rewrite reverse_cons.
  destruct (lstrip_snoc (reverse s) c Hc) as [v ->].
  rewrite reverse_snoc. by eexists.
Qed.

Lemma strip_head s c : head (strip s) = Some c → is_space c = false.
Proof.
  unfold strip. destruct (lstrip s) as [|a t] eqn:Hl; [done|].
  pose proof (lstrip_head _ _ _ Hl) as Ha.
  destruct (rstrip_cons a t Ha) as [v ->]. by intros [= <-].
Qed.

Lemma strip_nil s : strip s = [] ↔ Forall (λ c, is_space c = true) s.
Proof.
  rewrite <- lstrip_nil. unfold strip.
  destruct (lstrip s) as [|a t] eqn:Hl; [done|].
  pose proof (lstrip_head _ _ _ Hl) as Ha.
  destruct (rstrip_cons a t Ha) as [v ->]. done.
Qed.

Lemma strip_id s :
  (∀ c, head s = Some c → is_space c = false) →
  (∀ c, last s = Some c → is_space c = false) →
  strip s = s.
Proof. intros Hhead Hlast. unfold strip. by rewrite lstrip_id, rstrip_id. Qed.

(** X11.  The name Generate gives the target key is never empty, neither
    begins nor ends with white space, and is a name Generate would leave
    as it is.  It is "Hidden" exactly for a name of white space only (the
    empty name among them); otherwise it is the name given with white
    space, and nothing else, taken off its two ends. *)
Theorem key_name_normal (name : str) :
  let key_name := target_key_name name in
  key_name ≠ []
  ∧ (∀ c, head key_name = Some c → is_space c = false)
  ∧ (∀ c, last key_name = Some c → is_space c = false)
  ∧ target_key_name key_name = key_name
  ∧ (Forall (λ c, is_space c = true) name → key_name = py "Hidden")
  ∧ (¬ Forall (λ c, is_space c = true) name →
     ∃ p q, name = p ++ key_name ++ q
            ∧ Forall (λ c, is_space c = true) p
            ∧ Forall (λ c, is_space c = true) q).
Proof.
  intros key_name.
  destruct (strip name) as [|a t] eqn:Hs.
  - assert (key_name = py "Hidden") as ->.
    { subst key_name. unfold target_key_name. by rewrite Hs. }
    split; [discriminate|].
    split; [intros c [= <-]; reflexivity|].
    split; [intros c [= <-]; reflexivity|].
    split; [reflexivity|]. split; [done|].
    intros Hnot. by apply strip_nil in Hs.
  - assert (key_name = a :: t) as ->.
    { subst key_name. unfold target_key_name. by rewrite Hs. }
    assert (∀ c, head (a :: t) = Some c → is_space c = false) as Hhead.
    { rewrite <- Hs. apply strip_head. }
    assert (∀ c, last (a :: t) = Some c → is_space c = false) as Hlast.
    { rewrite <- Hs. unfold strip. apply rstrip_last. }
    split; [done|]. split; [done|]. split; [done|]. split.
    { unfold target_key_name. by rewrite strip_id. }
    split.
    { intros Hall%strip_nil. congruence. }
    intros _. destruct (lstrip_split name) as (p & Hname & Hp).
    destruct (rstrip_split (lstrip name)) as (q & Hl & Hq).
    exists p, q. split; [|done]. fold (strip name) in Hl. rewrite Hs in Hl.
    rewrite Hname at 1. by rewrite Hl at 1.
Qed.

(** ** Single precision: the centre and the origin *)

Module Binary32More.
Import Binary32 Binary32Facts.
Local Open Scope Z_scope.

(** [x - x] is [0.0] for a finite [x]. *)
Lemma sub_diag x : is_finite x = true → sub x x = zero.
Proof.
  destruct x as [[]|[]| |s m e]; try done. intros _.
  unfold sub, SFsub. by rewrite Z.sub_diag.
Qed.

Lemma mul_zero_l f : is_finite f = true → ∃ s, mul zero f = S754_zero s.
Proof. destruct f as [s|s| |s m e]; try done; intros _; by eexists. Qed.

Lemma shrink_component_at_center c f :
  is_finite c = true → is_finite f = true →
  eqb (add c (mul (sub c c) f)) c = true.
Proof.
  intros Hc Hf. rewrite sub_diag by done.
  destruct (mul_zero_l f Hf) as [s ->].
  apply add_signed_zero_r. by destruct c.
Qed.

Lemma shrink_component_origin x f :
  is_nan (mul x f) = false →
  eqb (add zero (mul (sub x zero) f)) (mul x f) = true.
Proof. intros Hn. rewrite sub_zero. by apply add_zero_l. Qed.

Lemma shrink_co_at_center center f :
  vfinite center = true → is_finite f = true →
  veqb (shrink_co center f center) center = true.
Proof.
  destruct center as [cx cy cz]. unfold vfinite.
  intros [[Hx Hy]%andb_true_iff Hz]%andb_true_iff Hf.
  change (eqb (add cx (mul (sub cx cx) f)) cx
          && eqb (add cy (mul (sub cy cy) f)) cy
          && eqb (add cz (mul (sub cz cz) f)) cz = true).
  by rewrite !shrink_component_at_center.
Qed.

Lemma shrink_co_origin f co :
  vnan (vmul co f) = false →
  veqb (shrink_co Vector_zero f co) (vmul co f) = true.
Proof.
  destruct co as [x y z]. intros Hn.
  change (is_nan (mul x f) || is_nan (mul y f) || is_nan (mul z f) = false) in Hn.
  apply orb_false_iff in Hn as [[Hx Hy]%orb_false_iff Hz].
  change (eqb (add zero (mul (sub x zero) f)) (mul x f)
          && eqb (add zero (mul (sub y zero) f)) (mul y f)
          && eqb (add zero (mul (sub z zero) f)) (mul z f) = true).
  by rewrite !shrink_component_origin.
Qed.

End Binary32More.

Section SinglePrecisionRuns.
Context `{SO : SetOrder}.

(** X12.  In single precision and Origin mode, the target key holds for
    every affected vertex its position scaled by the factor: the stored
    position compares equal to [position * factor], whenever that product
    is a number. *)
Theorem origin_mode_scales (o : Object) (sc : Scene) (L : Locals) (i : nat) :
  prepare o sc = Go L →
  hide_shrink_center sc = ORIGIN →
  i ∈ affected_verts L →
  ∃ co s,
    vertices (obj_data o) !! i = Some co
    ∧ shrunk_cos L !! i = Some s
    ∧ (Binary32.vnan (vmul co (hide_shrink_factor sc)) = false →
       Binary32.veqb s (vmul co (hide_shrink_factor sc)) = true).
Proof.
  intros Hprep Hmode Hi.
  apply prepare_Go in Hprep
    as (_ & _ & _ & _ & Hf & Hm & _ & _ & Horig & Hcenter & Hshrink).
  rewrite Hm, Hmode in Hcenter. injection Hcenter as Hc.
  pose proof (shrink_loop_in_range _ _ _ _ _ _ Hshrink i) as Hlt.
  apply (shrink_Ok (VO := Binary32.ops)) in Hshrink as [_ Hall].
  destruct (Hall i) as [Hin _].
  destruct (lookup_lt_is_Some_2 (orig_cos L) i) as [co Hco].
  { apply Hlt. by apply elem_of_set_iter. }
  exists co, (shrink_co (center L) (factor L) co).
  split; [by rewrite <- Horig|]. split.
  - etrans; [apply Hin; by apply elem_of_set_iter|]. by rewrite Hco.
  - rewrite <- Hc, Hf. apply Binary32More.shrink_co_origin.
Qed.

End SinglePrecisionRuns.

(** X13.  In single precision, a vertex that lies at the centre is not
    moved by any finite factor: its shrunk position compares equal to the
    centre. *)
Theorem vertex_at_center_stays
    (orig_cos : list Vector) (center : Vector) (f : Binary32.f32)
    (affected : list nat) (shrunk_cos : list Vector) (i : nat) :
  shrink orig_cos center f affected = Ok shrunk_cos →
  orig_cos !! i = Some center →
  Binary32.vfinite center = true →
  Binary32.is_finite f = true →
  ∃ s, shrunk_cos !! i = Some s ∧ Binary32.veqb s center = true.
Proof.
  intros [_ Hall]%(shrink_Ok (VO := Binary32.ops)) Hco Hfin Hf.
  destruct (Hall i) as [Hin Hnotin].
  destruct (decide (i ∈ affected)) as [Hi|Hi].
  - exists (shrink_co center f center). split.
    + etrans; [by apply Hin|]. by rewrite Hco.
    + by apply Binary32More.shrink_co_at_center.
  - exists center. split; [etrans; [by apply Hnotin|done]|].
    destruct center as [x y z]. unfold Binary32.vfinite in Hfin. simpl in Hfin.
    apply andb_true_iff in Hfin as [[Hx Hy]%andb_true_iff Hz].
    unfold Binary32.veqb. simpl.
    rewrite !Binary32Facts.eqb_refl; [done|by destruct z|by destruct y|by destruct x].
Qed.

Section KeysAndPanel.
Context `{VO : VectorOps} `{SO : SetOrder}.

(** ** The two keys side by side *)

(** X14.  In the state a successful Generate leaves, both key blocks hold
    one position per vertex, and the target differs from "Basis" at most
    at the vertices of a face whose slot index is the position of a
    checked selector entry holding a material. *)
Theorem keys_differ_only_on_selection (ctx ctx' : Context) (m : Message) :
  CreateHideOperator_execute ctx = (Return FINISHED INFO m, ctx') →
  ∃ o basis hide,
    active_object ctx = Some o
    ∧ live_shape_keys ctx' = Some [basis; hide]
    ∧ length (sk_data basis) = length (vertices (obj_data o))
    ∧ length (sk_data hide) = length (vertices (obj_data o))
    ∧ ∀ i, sk_data hide !! i ≠ sk_data basis !! i →
           ∃ face item,
             face ∈ polygons (obj_data o) ∧ i ∈ verts face
             ∧ vrm_hide_materials o !! material_index face = Some item
             ∧ use_hide item = true ∧ is_Some (material item).
Proof.
  intros Hrun.
  destruct (not_a_mesh (active_object ctx)) eqn:Hmesh.
  { by rewrite CreateHideOperator_execute_not_mesh in Hrun. }
  apply not_a_mesh_false in Hmesh as (o & Hobj & Hty).
  rewrite (CreateHideOperator_execute_mesh ctx o Hobj Hty) in Hrun.
  destruct (prepare o (scene ctx)) as [out|L] eqn:Hprep.
  { injection Hrun as -> _. by destruct (prepare_Stop _ _ _ Hprep) as [[? ?]|[? ?]]. }
  injection Hrun as _ <-.
  pose proof Hprep as (Hkeys & Hchecked & _ & _ & _ & _ & Haff & _ & Horig & _ & Hshrink)
    %prepare_Go.
  apply shrink_Ok in Hshrink as [Hlen Hall].
  exists o, (basis_key (obj_data o)), (hide_key L).
  split; [done|]. split.
  { unfold live_shape_keys, generated. simpl. by rewrite Hkeys. }
  split; [done|]. split; [simpl; by rewrite Hlen, Horig|].
  intros i Hdiff. simpl in Hdiff.
  destruct (decide (i ∈ affected_verts L)) as [Hi|Hi].
  - rewrite Haff, Hchecked in Hi.
    apply elem_of_affected_vertices in Hi as (face & Hface & Hchk & Hin).
    apply elem_of_checked_indices in Hchk as (item & Hitem & Hu & Hm).
    by exists face, item.
  - destruct (Hall i) as [_ Hnotin]. exfalso. apply Hdiff.
    rewrite <- Horig. apply Hnotin. by rewrite elem_of_set_iter.
Qed.

(** ** The panel *)

Lemma draw_rows_cons k item items :
  omap row_entry (draw_rows k (item :: items))
  = match material item with
    | Some mat => (k, use_hide item, mat) :: omap row_entry (draw_rows (S k) items)
    | None => omap row_entry (draw_rows (S k) items)
    end.
Proof. cbn [draw_rows]. by destruct (material item). Qed.

Lemma ticked_rows_of_draw_rows k items :
  (λ r : nat * bool * string, r.1.1)
    <$> filter (λ r : nat * bool * string, r.1.2 = true)
               (omap row_entry (draw_rows k items))
  = checked_from k items.
Proof.
  revert k. induction items as [|item items IH]; intros k; [done|].
  rewrite draw_rows_cons. cbn [checked_from]. unfold is_checked.
  destruct (material item) as [mat|] eqn:Hm.
  - destruct (use_hide item) eqn:Hu.
    + rewrite filter_cons_True by done.
      rewrite bool_decide_eq_true_2 by (by eexists).
      cbn [andb]. rewrite fmap_cons. by rewrite IH.
    + rewrite filter_cons_False by done. apply IH.
  - rewrite bool_decide_eq_false_2 by (by intros [? ?]).
    rewrite andb_false_r. apply IH.
Qed.

Lemma elem_of_draw_rows k items i b mat :
  (i, b, mat) ∈ omap row_entry (draw_rows k items)
  ↔ k ≤ i ∧ ∃ item, items !! (i - k) = Some item
                    ∧ material item = Some mat ∧ use_hide item = b.
Proof.
  revert k. induction items as [|item items IH]; intros k.
  - simpl. split; [by intros ?%elem_of_nil|by intros (_ & ? & ? & _)].
  - assert ((i, b, mat) ∈ omap row_entry (draw_rows (S k) items)
            ↔ k < i ∧ ∃ item', items !! (i - S k) = Some item'
                       ∧ material item' = Some mat ∧ use_hide item' = b) as Htail
      by apply IH.
    rewrite draw_rows_cons. destruct (material item) as [mat'|] eqn:Hm.
    + rewrite elem_of_cons, Htail. split.
      * intros [[= -> -> ->]|(Hlt & item' & Hl & Hm' & Hu)].
        -- split; [done|]. exists item. by rewrite Nat.sub_diag.
        -- split; [lia|]. exists item'.
           by replace (i - k) with (S (i - S k)) by lia.
      * intros (Hle & item' & Hl & Hm' & Hu).
        destruct (decide (i = k)) as [->|Hne].
        -- left. rewrite Nat.sub_diag in Hl. simpl in Hl.
           injection Hl as <-. congruence.
        -- right. split; [lia|]. exists item'.
           by replace (i - k) with (S (i - S k)) in Hl by lia.
    + rewrite Htail. split.
      * intros (Hlt & item' & Hl & Hm' & Hu). split; [lia|]. exists item'.
        by replace (i - k) with (S (i - S k)) by lia.
      * intros (Hle & item' & Hl & Hm' & Hu).
        destruct (decide (i = k)) as [->|Hne].
        -- rewrite Nat.sub_diag in Hl. simpl in Hl. congruence.
        -- split; [lia|]. exists item'.
           by replace (i - k) with (S (i - S k)) in Hl by lia.
Qed.

Lemma HidePanel_draw_mesh ctx o :
  active_object ctx = Some o → obj_type o = "MESH" →
  HidePanel_draw ctx
  = [ SceneProp "hide_shape_key_name";
      SceneProp "hide_shrink_factor";
      SceneProp "hide_shrink_center";
      Box (Label "Materials to Hide/Shrink"
           :: OperatorButton "object.sync_hide_materials" "FILE_REFRESH"
           :: draw_rows 0 (vrm_hide_materials o));
      OperatorButton "object.create_material_hide" "SHAPEKEY_DATA" ].
Proof.
  intros Hobj Hty. unfold HidePanel_draw. rewrite Hobj.
  by assert (not_a_mesh (Some o) = false) as -> by (apply not_a_mesh_false; eauto).
Qed.

Lemma panel_rows_mesh ctx o :
  active_object ctx = Some o → obj_type o = "MESH" →
  panel_rows (HidePanel_draw ctx)
  = omap row_entry (draw_rows 0 (vrm_hide_materials o)).
Proof.
  intros Hobj Hty. rewrite (HidePanel_draw_mesh ctx o Hobj Hty).
  unfold panel_rows. simpl. by rewrite app_nil_r.
Qed.

Lemma draw_rows_no_button k items : omap button_idname (draw_rows k items) = [].
Proof.
  revert k. induction items as [|item items IH]; intros k; [done|].
  cbn [draw_rows]. destruct (material item); [|apply IH].
  change (omap button_idname (Row ?c :: ?l)) with (omap button_idname l).
  apply IH.
Qed.

(** X15.  The panel shows one row per selector entry that holds a
    material, with the entry's flag as its tick and the material's name
    as its label, and the ticked rows, from top to bottom, are the
    checked indices Generate works with. *)
Theorem panel_rows_are_checked_indices (ctx : Context) (o : Object) :
  active_object ctx = Some o →
  obj_type o = "MESH" →
  let rows := panel_rows (HidePanel_draw ctx) in
  (∀ i b mat,
     (i, b, mat) ∈ rows
     ↔ ∃ item, vrm_hide_materials o !! i = Some item
               ∧ material item = Some mat ∧ use_hide item = b)
  ∧ (λ r : nat * bool * string, r.1.1)
      <$> filter (λ r : nat * bool * string, r.1.2 = true) rows
    = checked_indices (vrm_hide_materials o).
Proof.
  intros Hobj Hty rows. subst rows. rewrite (panel_rows_mesh ctx o Hobj Hty).
  split; [|apply ticked_rows_of_draw_rows].
  intros i b mat. rewrite elem_of_draw_rows, Nat.sub_0_r.
  split; [by intros [_ ?]|]. intros ?. split; [lia|done].
Qed.

Lemma rows_after_refresh k (mats : list Material) :
  omap row_entry
    (draw_rows k ((λ m, {| material := Some m; use_hide := true |}) <$> mats))
  = imap (λ i mat, (k + i, true, mat)) mats.
Proof.
  revert k. induction mats as [|mat mats IH]; intros k; [done|].
  rewrite fmap_cons, draw_rows_cons. cbn [material use_hide imap].
  rewrite IH, Nat.add_0_r. f_equal. apply imap_ext. intros i x _. simpl.
  f_equal. f_equal. lia.
Qed.

(** X16.  After Refresh the panel lists the materials of the non-null
    slots, in slot order, every row ticked, numbered from 0 without
    gaps. *)
Theorem panel_after_refresh (ctx : Context) (o : Object) :
  active_object ctx = Some o →
  obj_type o = "MESH" →
  panel_rows (HidePanel_draw (SyncMaterialsOperator_execute ctx).2)
  = imap (λ i mat, (i, true, mat)) (omap id (materials (obj_data o))).
Proof.
  intros Hobj Hty.
  rewrite (SyncMaterialsOperator_execute_mesh ctx o Hobj Hty). simpl.
  set (o1 := set_items (selector_of_slots (materials (obj_data o))) o).
  rewrite (panel_rows_mesh {| active_object := Some o1; scene := scene ctx |} o1
             eq_refl Hty).
  simpl. unfold selector_of_slots. by rewrite rows_after_refresh.
Qed.

(** X17.  The panel offers its two buttons, named as the two operators
    are, exactly when the operators would not fail for want of a mesh
    object; otherwise it shows a single label and nothing to press. *)
Theorem panel_offers_what_can_run (ctx : Context) :
  ((CreateHideOperator_execute ctx).1 = NotAMeshError
   ↔ (SyncMaterialsOperator_execute ctx).1 = NotAMeshError)
  ∧ ((CreateHideOperator_execute ctx).1 = NotAMeshError
     → HidePanel_draw ctx = [Label "Select a mesh object"]
       ∧ panel_buttons (HidePanel_draw ctx) = []
       ∧ panel_rows (HidePanel_draw ctx) = [])
  ∧ ((CreateHideOperator_execute ctx).1 ≠ NotAMeshError
     → panel_buttons (HidePanel_draw ctx)
       = [SyncMaterialsOperator_bl_idname; CreateHideOperator_bl_idname]).
Proof.
  destruct (not_a_mesh (active_object ctx)) eqn:Hmesh.
  - rewrite CreateHideOperator_execute_not_mesh by done.
    unfold SyncMaterialsOperator_execute, HidePanel_draw. rewrite Hmesh. simpl.
    split; [done|]. split; [done|]. by intros [].
  - pose proof Hmesh as (o & Hobj & Hty)%not_a_mesh_false.
    rewrite (CreateHideOperator_execute_mesh ctx o Hobj Hty).
    rewrite (SyncMaterialsOperator_execute_mesh ctx o Hobj Hty).
    assert ((match prepare o (scene ctx) with
             | Stop out => (out, ctx)
             | Go L => (Return FINISHED INFO (HideShapeKeyCreated (key_name L)),
                        generated ctx o L)
             end).1 ≠ NotAMeshError) as Hnot.
    { destruct (prepare o (scene ctx)) as [out|L] eqn:Hprep; simpl; [|done].
      apply prepare_Stop_cases in Hprep
        as [[_ ->]|[(_ & _ & ->)|[(_ & _ & _ & ->)|(_ & -> & _)]]]; done. }
    split; [done|]. split; [done|]. intros _.
    rewrite (HidePanel_draw_mesh ctx o Hobj Hty).
    unfold panel_buttons. cbn [mbind list_bind widget_buttons app].
    change (omap button_idname (Label ?t :: OperatorButton ?i ?c :: ?l))
      with (i :: omap button_idname l).
    by rewrite draw_rows_no_button.
Qed.

End KeysAndPanel.

(** ** Registration *)

Lemma run_steps_app a b r :
  run_steps (a ++ b) r
  = match run_steps a r with
    | (None, r') => run_steps b r'
    | stopped => stopped
    end.
Proof.
  revert r. induction a as [|step a IH]; intros r; simpl; [done|].
  destruct (reg_step r step) as [e|r']; [done|]. apply IH.
Qed.

Lemma trace_app a b r :
  trace (a ++ b) r
  = trace a r ++ match run_steps a r with
                 | (None, r') => trace b r'
                 | _ => []
                 end.
Proof.
  revert r. induction a as [|step a IH]; intros r; simpl; [done|].
  destruct (reg_step r step) as [e|r']; [done|]. simpl. by rewrite IH.
Qed.

Lemma filter_ne_id (c : string) (l : list string) :
  c ∉ l → filter (λ x, x ≠ c) l = l.
Proof.
  induction l as [|x l IH]; [done|]. intros [Hne Hnotin]%not_elem_of_cons.
  rewrite filter_cons_True by done. by rewrite IH.
Qed.

Lemma with_registered_twice l l' r :
  with_registered l (with_registered l' r) = with_registered l r.
Proof. done. Qed.

Lemma run_register_classes l r :
  NoDup l → (∀ c, c ∈ l → c ∉ registered r) →
  run_steps (register_class <$> l) r
  = (None, with_registered (registered r ++ l) r).
Proof.
  revert r. induction l as [|c l IH]; intros r Hnd Hfresh.
  - simpl. rewrite app_nil_r. by destruct r.
  - apply NoDup_cons in Hnd as [Hc Hnd]. simpl.
    rewrite bool_decide_eq_false_2 by (apply Hfresh; left).
    rewrite IH; [|done|].
    + simpl. by rewrite <- app_assoc.
    + intros c' Hc'. simpl. rewrite elem_of_app, list_elem_of_singleton.
      intros [Hin| ->]; [|done]. apply (Hfresh c'); [by right|done].
Qed.

Lemma run_unregister_classes l cs r :
  NoDup l → (∀ c, c ∈ l → c ∉ cs) → registered r = cs ++ l →
  run_steps (unregister_class <$> reverse l) r = (None, with_registered cs r).
Proof.
  revert r. induction l as [|c l IH] using rev_ind; intros r Hnd Hfresh Hreg.
  - simpl. rewrite app_nil_r in Hreg. rewrite <- Hreg. by destruct r.
  - apply NoDup_app in Hnd as (Hnd & Hdisj & _).
    rewrite reverse_snoc. simpl. rewrite Hreg.
    rewrite bool_decide_eq_true_2 by (rewrite !elem_of_app, list_elem_of_singleton; auto).
    rewrite !filter_app, filter_cons_False, filter_nil, app_nil_r by (by intros ?).
    rewrite !filter_ne_id.
    + rewrite IH; [done|done| |done].
      intros c' Hc'. apply Hfresh. rewrite elem_of_app. by left.
    + intros Hin. apply (Hdisj c Hin). apply list_elem_of_singleton. done.
    + apply Hfresh. rewrite elem_of_app, list_elem_of_singleton. by right.
Qed.

Lemma classes_NoDup : NoDup classes.
Proof. apply (bool_decide_unpack _). by vm_compute. Qed.

Lemma run_del ty name r rest def :
  attrs_of ty r !! name = Some def →
  run_steps (del_attr ty name :: rest) r
  = run_steps rest (with_attrs ty (delete name (attrs_of ty r)) r).
Proof. intros Hl. simpl. by rewrite Hl. Qed.

(** The state between the two halves of [register]. *)
Lemma register_explicit r :
  (∀ c, c ∈ classes → c ∉ registered r) →
  register r
  = (None,
     {| registered := registered r ++ classes;
        Object_attrs :=
          <["vrm_hide_materials" := CollectionProperty "VRMHideMaterialItem"]>
            (Object_attrs r);
        Scene_attrs :=
          <["hide_shrink_center" := EnumProperty ["CENTROID"; "ORIGIN"] "CENTROID"]>
            (<["hide_shrink_factor" :=
                 FloatProperty (1, 100)%Z (0, 1)%Z (1, 1)%Z "FACTOR"]>
               (<["hide_shape_key_name" := StringProperty (py "Hidden")]>
                  (Scene_attrs r))) |}).
Proof.
  intros Hfresh. unfold register, register_steps.
  rewrite run_steps_app, run_register_classes by (done || apply classes_NoDup).
  done.
Qed.

(** X18.  Enabling and then disabling the add-on leaves the host as it
    was: on a host that has none of the four classes and none of the four
    properties, [register] succeeds, after it the classes are registered
    and the selector property is defined, and [unregister] then succeeds
    and gives back the registry [register] started from.  Registering a
    second time fails on the first class and changes nothing, and so does
    unregistering what was never registered, on the first [del]. *)
Theorem register_unregister_roundtrip (r : Registry) :
  (∀ c, c ∈ classes → c ∉ registered r) →
  Object_attrs r !! "vrm_hide_materials" = None →
  Scene_attrs r !! "hide_shape_key_name" = None →
  Scene_attrs r !! "hide_shrink_factor" = None →
  Scene_attrs r !! "hide_shrink_center" = None →
  ∃ r1,
    register r = (None, r1)
    ∧ (∀ c, c ∈ classes → c ∈ registered r1)
    ∧ Object_attrs r1 !! "vrm_hide_materials"
      = Some (CollectionProperty "VRMHideMaterialItem")
    ∧ unregister r1 = (None, r)
    ∧ register r1 = (Some ValueError, r1)
    ∧ unregister r = (Some AttributeError, r).
Proof.
  intros Hfresh Hvrm Hname Hfactor Hcenter.
  eexists. split; [by apply register_explicit|].
  split; [|split; [|split; [|split]]].
  - intros c Hc. simpl. rewrite elem_of_app. by right.
  - simpl. apply lookup_insert_eq.
  - unfold unregister, unregister_steps.
    rewrite <- app_comm_cons.
    erewrite run_del by (cbn; apply lookup_insert_eq).
    cbn [attrs_of with_attrs Object_attrs Scene_attrs registered].
    rewrite delete_insert_id by done.
    rewrite <- app_comm_cons.
    erewrite run_del
      by (cbn; rewrite !lookup_insert_ne by done; apply lookup_insert_eq).
    cbn [attrs_of with_attrs Object_attrs Scene_attrs registered].
    rewrite !(delete_insert_ne _ "hide_shape_key_name") by done.
    rewrite delete_insert_id by done.
    rewrite <- app_comm_cons.
    erewrite run_del
      by (cbn; rewrite !lookup_insert_ne by done; apply lookup_insert_eq).
    cbn [attrs_of with_attrs Object_attrs Scene_attrs registered].
    rewrite !(delete_insert_ne _ "hide_shrink_factor") by done.
    rewrite delete_insert_id by done.
    rewrite <- app_comm_cons.
    erewrite run_del by (cbn; apply lookup_insert_eq).
    cbn [attrs_of with_attrs Object_attrs Scene_attrs registered].
    rewrite delete_insert_id by done.
    rewrite app_nil_l.
    rewrite (run_unregister_classes classes (registered r));
      [by destruct r|apply classes_NoDup|done|done].
  - unfold register, register_steps. simpl.
    rewrite bool_decide_eq_true_2; [done|].
    rewrite elem_of_app. right. left.
  - unfold unregister, unregister_steps. simpl. by rewrite Hvrm.
Qed.

Lemma trace_del ty name r rest def :
  attrs_of ty r !! name = Some def →
  trace (del_attr ty name :: rest) r
  = with_attrs ty (delete name (attrs_of ty r)) r
    :: trace rest (with_attrs ty (delete name (attrs_of ty r)) r).
Proof. intros Hl. simpl. by rewrite Hl. Qed.

Lemma trace_register_classes l r :
  NoDup l → (∀ c, c ∈ l → c ∉ registered r) →
  length (trace (register_class <$> l) r) = length l
  ∧ Forall (λ r', ∃ l', r' = with_registered (registered r ++ l') r)
           (trace (register_class <$> l) r).
Proof.
  revert r. induction l as [|c l IH]; intros r Hnd Hfresh; [done|].
  apply NoDup_cons in Hnd as [Hc Hnd]. simpl.
  rewrite bool_decide_eq_false_2 by (apply Hfresh; left).
  destruct (IH (with_registered (registered r ++ [c]) r)) as [Hlen Hall]; [done| |].
  { intros c' Hc'. simpl. rewrite elem_of_app, list_elem_of_singleton.
    intros [Hin| ->]; [|done]. apply (Hfresh c'); [by right|done]. }
  split; [simpl; f_equal; exact Hlen|].
  constructor; [by exists [c]|].
  eapply Forall_impl; [exact Hall|]. simpl.
  intros r' [l' ->]. exists (c :: l'). simpl. by rewrite <- app_assoc.
Qed.

Lemma trace_unregister_classes l cs r :
  NoDup l → (∀ c, c ∈ l → c ∉ cs) → registered r = cs ++ l →
  length (trace (unregister_class <$> reverse l) r) = length l
  ∧ Forall (λ r', ∃ l', r' = with_registered (cs ++ l') r)
           (trace (unregister_class <$> reverse l) r).
Proof.
  revert r. induction l as [|c l IH] using rev_ind; intros r Hnd Hfresh Hreg; [done|].
  apply NoDup_app in Hnd as (Hnd & Hdisj & _).
  rewrite reverse_snoc. simpl. rewrite Hreg.
  rewrite bool_decide_eq_true_2 by (rewrite !elem_of_app, list_elem_of_singleton; auto).
  rewrite !filter_app, filter_cons_False, filter_nil, app_nil_r by (by intros ?).
  rewrite !filter_ne_id.
  2:{ intros Hin. apply (Hdisj c Hin). by apply list_elem_of_singleton. }
  2:{ apply Hfresh. rewrite elem_of_app, list_elem_of_singleton. by right. }
  destruct (IH (with_registered (cs ++ l) r)) as [Hlen Hall]; [done| |done|].
  { intros c' Hc'. apply Hfresh. rewrite elem_of_app. by left. }
  split; [rewrite length_app; simpl; rewrite Nat.add_1_r; f_equal; exact Hlen|].
  constructor; [by exists l|].
  eapply Forall_impl; [exact Hall|]. simpl. intros r' [l' ->]. by exists l'.
Qed.

Lemma collections_typed_grow r r' :
  collections_typed r →
  Object_attrs r' = Object_attrs r →
  (∀ c, c ∈ registered r → c ∈ registered r') →
  collections_typed r'.
Proof.
  intros Htyped Hattrs Hreg name cls Hl. rewrite Hattrs in Hl.
  apply Hreg. by eapply Htyped.
Qed.

Lemma collections_typed_selector r r' :
  collections_typed r →
  Object_attrs r'
  = <["vrm_hide_materials" := CollectionProperty "VRMHideMaterialItem"]>
      (Object_attrs r) →
  registered r' = registered r ++ classes →
  collections_typed r'.
Proof.
  intros Htyped Hattrs Hreg name cls. rewrite Hattrs, Hreg, elem_of_app.
  destruct (decide (name = "vrm_hide_materials")) as [->|Hne].
  - rewrite lookup_insert_eq. intros [= <-]. right. left.
  - rewrite lookup_insert_ne by done. intros Hl. left. by eapply Htyped.
Qed.

(** X19.  While the add-on is enabled and disabled again, statement by
    statement, no collection property on objects ever names a class that
    is not registered: the classes are registered before the selector
    property is defined, and the property is deleted before its class is
    unregistered.  All sixteen statements run. *)
Theorem registration_keeps_collections_typed (r : Registry) :
  (∀ c, c ∈ classes → c ∉ registered r) →
  Object_attrs r !! "vrm_hide_materials" = None →
  Scene_attrs r !! "hide_shape_key_name" = None →
  Scene_attrs r !! "hide_shrink_factor" = None →
  Scene_attrs r !! "hide_shrink_center" = None →
  collections_typed r →
  length (trace (register_steps ++ unregister_steps) r) = 16
  ∧ Forall collections_typed (trace (register_steps ++ unregister_steps) r).
Proof.
  intros Hfresh Hvrm Hname Hfactor Hcenter Htyped.
  rewrite trace_app. fold (register r). rewrite register_explicit by done.
  unfold register_steps. rewrite trace_app.
  rewrite run_register_classes by (done || apply classes_NoDup).
  destruct (trace_register_classes classes r classes_NoDup Hfresh) as [Hlen1 Hall1].
  set (r1 := {| registered := registered r ++ classes;
                Object_attrs := <["vrm_hide_materials" := _]> (Object_attrs r);
                Scene_attrs := _ |}).
  assert (∃ s1 s2 s3 s4 : Registry,
            trace unregister_steps r1 = s1 :: s2 :: s3 :: s4
              :: trace (unregister_class <$> reverse classes)
                       (with_registered (registered r ++ classes) r)
            ∧ Forall (λ s, Object_attrs s = Object_attrs r
                           ∧ registered s = registered r ++ classes)
                     [s1; s2; s3; s4]) as (s1 & s2 & s3 & s4 & Htrace & Hdel).
  { unfold unregister_steps, r1.
    rewrite <- app_comm_cons.
    erewrite trace_del by (cbn; apply lookup_insert_eq).
    cbn [attrs_of with_attrs Object_attrs Scene_attrs registered].
    rewrite delete_insert_id by done.
    rewrite <- app_comm_cons.
    erewrite trace_del
      by (cbn; rewrite !lookup_insert_ne by done; apply lookup_insert_eq).
    cbn [attrs_of with_attrs Object_attrs Scene_attrs registered].
    rewrite !(delete_insert_ne _ "hide_shape_key_name") by done.
    rewrite delete_insert_id by done.
    rewrite <- app_comm_cons.
    erewrite trace_del
      by (cbn; rewrite !lookup_insert_ne by done; apply lookup_insert_eq).
    cbn [attrs_of with_attrs Object_attrs Scene_attrs registered].
    rewrite !(delete_insert_ne _ "hide_shrink_factor") by done.
    rewrite delete_insert_id by done.
    rewrite <- app_comm_cons.
    erewrite trace_del by (cbn; apply lookup_insert_eq).
    cbn [attrs_of with_attrs Object_attrs Scene_attrs registered].
    rewrite delete_insert_id by done.
    rewrite app_nil_l.
    eexists _, _, _, _. split.
    - first [reflexivity | (do 5 f_equal; by destruct r)].
    - by repeat constructor. }
  rewrite Htrace.
  assert (∃ b1 b2 b3 b4 : Registry,
            trace [ set_attr ObjectType "vrm_hide_materials"
                      (CollectionProperty "VRMHideMaterialItem");
                    set_attr SceneType "hide_shape_key_name"
                      (StringProperty (py "Hidden"));
                    set_attr SceneType "hide_shrink_factor"
                      (FloatProperty (1, 100)%Z (0, 1)%Z (1, 1)%Z "FACTOR");
                    set_attr SceneType "hide_shrink_center"
                      (EnumProperty ["CENTROID"; "ORIGIN"] "CENTROID") ]
                  (with_registered (registered r ++ classes) r)
            = [b1; b2; b3; b4]
            ∧ Forall (λ s, Object_attrs s
                           = <["vrm_hide_materials" :=
                                 CollectionProperty "VRMHideMaterialItem"]>
                               (Object_attrs r)
                           ∧ registered s = registered r ++ classes)
                     [b1; b2; b3; b4]) as (b1 & b2 & b3 & b4 & Hset & Hattrs).
  { eexists _, _, _, _. split; [reflexivity|]. by repeat constructor. }
  rewrite Hset.
  destruct (trace_unregister_classes classes (registered r)
              (with_registered (registered r ++ classes) r)
              classes_NoDup Hfresh eq_refl) as [Hlen4 Hall4].
  split.
  - rewrite !length_app, Hlen1. cbn [length]. rewrite Hlen4. reflexivity.
  - rewrite !Forall_app. split; [split|].
    + eapply Forall_impl; [exact Hall1|]. simpl. intros r' [l' ->].
      apply (collections_typed_grow r); [done|done|].
      intros c Hc. simpl. rewrite elem_of_app. by left.
    + eapply Forall_impl; [exact Hattrs|]. simpl. intros s [Ha Hr].
      by apply (collections_typed_selector r).
    + rewrite !Forall_cons. rewrite !Forall_cons in Hdel.
      destruct Hdel as ([Ha1 Hr1] & [Ha2 Hr2] & [Ha3 Hr3] & [Ha4 Hr4] & _).
      assert (∀ s, Object_attrs s = Object_attrs r →
                   registered s = registered r ++ classes →
                   collections_typed s) as Hgrow.
      { intros s Ha Hr. apply (collections_typed_grow r); [done|done|].
        intros c Hc. rewrite Hr, elem_of_app. by left. }
      split; [by apply Hgrow|]. split; [by apply Hgrow|].
      split; [by apply Hgrow|]. split; [by apply Hgrow|].
      eapply Forall_impl; [exact Hall4|]. simpl. intros r' [l' ->].
      apply (collections_typed_grow r); [done|done|].
      intros c Hc. simpl. rewrite elem_of_app. by left.
Qed.

(** ** Runs for the properties above *)

Lemma generate_twice_witness :
  ∃ ctx' m,
    CreateHideOperator_execute cube_context = (Return FINISHED INFO m, ctx')
    ∧ CreateHideOperator_execute ctx' = (ExistingShapeKeysError, ctx').
Proof.
  exists_finished cube_context. split; [reflexivity|].
  eapply (generate_twice cube_context). reflexivity.
Defined.

Lemma cube_mesh_wf : mesh_wf cube_mesh.
Proof. unfold mesh_wf. simpl. repeat constructor. Qed.

Lemma generate_succeeds_iff_witness :
  (∀ e, (CreateHideOperator_execute cube_context).1 ≠ Raised e)
  ∧ ((∃ m, (CreateHideOperator_execute cube_context).1 = Return FINISHED INFO m)
     ↔ ∃ o, active_object cube_context = Some o ∧ obj_type o = "MESH"
            ∧ shape_keys (obj_data o) = []
            ∧ ∃ face item,
                face ∈ polygons (obj_data o)
                ∧ vrm_hide_materials o !! material_index face = Some item
                ∧ use_hide item = true ∧ is_Some (material item)
                ∧ verts face ≠ []).
Proof.
  apply (generate_succeeds_iff cube_context).
  intros o [= <-]. exact cube_mesh_wf.
Defined.

Lemma generate_after_refresh_witness :
  ∃ o1,
    active_object (SyncMaterialsOperator_execute gapped_context).2 = Some o1
    ∧ checked_indices (vrm_hide_materials o1) = [0; 1]
    ∧ checked_indices (vrm_hide_materials o1)
      = seq 0 (length (omap id (materials (obj_data gapped_object)))).
Proof.
  destruct (generate_after_refresh gapped_context gapped_object eq_refl eq_refl)
    as (o1 & Hobj & Hchecked & _).
  exists o1. split; [exact Hobj|]. split; [|exact Hchecked].
  rewrite Hchecked. reflexivity.
Defined.

Lemma refresh_position_witness :
  ∃ o', sync_material_list (Some gapped_object) = Some o'
        ∧ materials (obj_data gapped_object) !! 2 = Some (Some "B")
        ∧ vrm_hide_materials o' !! 1 = Some (checked_item "B").
Proof.
  eexists. split; [reflexivity|]. split; [reflexivity|].
  eapply (refresh_position gapped_object _ 2 "B"); reflexivity.
Defined.

Lemma refresh_length_witness :
  ∃ o', sync_material_list (Some gapped_object) = Some o'
        ∧ length (vrm_hide_materials o') ≤ length (materials (obj_data gapped_object))
        ∧ (length (vrm_hide_materials o') = length (materials (obj_data gapped_object))
           ↔ Forall is_Some (materials (obj_data gapped_object))).
Proof.
  eexists. split; [reflexivity|].
  eapply (refresh_length gapped_object); reflexivity.
Defined.

Lemma origin_mode_scales_witness :
  ∃ L co s,
    prepare origin_cube_object origin_scene = Go L
    ∧ 0 ∈ affected_verts L
    ∧ vertices (obj_data origin_cube_object) !! 0 = Some co
    ∧ shrunk_cos L !! 0 = Some s
    ∧ Binary32.veqb s (vmul co (hide_shrink_factor origin_scene)) = true.
Proof.
  exists_locals origin_cube_object origin_scene.
  match goal with |- context [Go ?L] =>
    destruct (origin_mode_scales origin_cube_object origin_scene L 0)
      as (co & s & Hco & Hs & Heq) end;
    [reflexivity|reflexivity|by vm_compute|].
  exists co, s. split; [reflexivity|]. split; [by vm_compute|].
  split; [exact Hco|]. split; [exact Hs|].
  apply Heq. injection Hco as <-. reflexivity.
Defined.

Lemma vertex_at_center_stays_witness :
  let center := Binary32.vec 1 2 3 in
  let orig_cos : list Vector := [center; Binary32.vec 4 5 6] in
  ∃ shrunk_cos,
    shrink orig_cos center (Binary32.ratio 1 100) [0; 1] = Ok shrunk_cos
    ∧ ∃ s, shrunk_cos !! 0 = Some s ∧ Binary32.veqb s center = true.
Proof.
  intros center orig_cos.
  let r := eval vm_compute in (shrink orig_cos center (Binary32.ratio 1 100) [0; 1]) in
  match r with Ok ?cos => exists cos end.
  split; [reflexivity|].
  eapply (vertex_at_center_stays orig_cos center (Binary32.ratio 1 100) [0; 1]);
    reflexivity.
Defined.

Lemma keys_differ_only_on_selection_witness :
  ∃ ctx' m o basis hide,
    CreateHideOperator_execute split_cube_context = (Return FINISHED INFO m, ctx')
    ∧ active_object split_cube_context = Some o
    ∧ live_shape_keys ctx' = Some [basis; hide]
    ∧ length (sk_data basis) = length (vertices (obj_data o))
    ∧ length (sk_data hide) = length (vertices (obj_data o))
    ∧ sk_data hide !! 1 = sk_data basis !! 1
    ∧ sk_data hide !! 0 ≠ sk_data basis !! 0.
Proof.
  exists_finished split_cube_context.
  edestruct (keys_differ_only_on_selection split_cube_context)
    as (o & basis & hide & Hobj & Hkeys & Hlb & Hlh & Hdiff); [reflexivity|].
  exists o, basis, hide. split; [reflexivity|].
  split; [exact Hobj|]. split; [exact Hkeys|]. split; [exact Hlb|].
  split; [exact Hlh|].
  injection Hkeys as <- <-. split; [reflexivity|]. discriminate.
Defined.

Lemma panel_rows_are_checked_indices_witness :
  panel_rows (HidePanel_draw nothing_checked_context) = [(0, false, "M0")]
  ∧ (λ r : nat * bool * string, r.1.1)
      <$> filter (λ r : nat * bool * string, r.1.2 = true)
                 (panel_rows (HidePanel_draw nothing_checked_context))
    = checked_indices (vrm_hide_materials nothing_checked_object).
Proof.
  split; [reflexivity|].
  apply (panel_rows_are_checked_indices nothing_checked_context nothing_checked_object);
    reflexivity.
Defined.

Lemma panel_after_refresh_witness :
  panel_rows (HidePanel_draw (SyncMaterialsOperator_execute gapped_context).2)
  = [(0, true, "A"); (1, true, "B")].
Proof.
  rewrite (panel_after_refresh gapped_context gapped_object eq_refl eq_refl).
  reflexivity.
Defined.

Lemma register_unregister_roundtrip_witness :
  ∃ r1,
    register empty_registry = (None, r1)
    ∧ (∀ c, c ∈ classes → c ∈ registered r1)
    ∧ Object_attrs r1 !! "vrm_hide_materials"
      = Some (CollectionProperty "VRMHideMaterialItem")
    ∧ unregister r1 = (None, empty_registry)
    ∧ register r1 = (Some ValueError, r1)
    ∧ unregister empty_registry = (Some AttributeError, empty_registry).
Proof.
  apply (register_unregister_roundtrip empty_registry); try reflexivity.
  intros c _ Hin. simpl in Hin. by apply elem_of_nil in Hin.
Defined.

Lemma registration_keeps_collections_typed_witness :
  length (trace (register_steps ++ unregister_steps) empty_registry) = 16
  ∧ Forall collections_typed (trace (register_steps ++ unregister_steps) empty_registry).
Proof.
  apply (registration_keeps_collections_typed empty_registry); try reflexivity.
  - intros c _ Hin. simpl in Hin. by apply elem_of_nil in Hin.
  - intros name cls Hl. simpl in Hl. by rewrite lookup_empty in Hl.
Defined.
